(** * Chef-Bot: the recipe proxy function and the saved-recipes pages

    A shallow embedding of
    - the edge function [generate-recipe] (the handler given to [serve]),
    - the [saved_recipes] table and the two pages that write and list it
      ([Recipe.tsx]: [handleSaveRecipe], [handleFavoriteRecipe];
       [SavedRecipes]: [fetchSavedRecipes], the two tab filters),
    followed by the properties of the specification proved about them.

    The handler runs on a JavaScript engine; the part of the engine it
    touches (JSON text, property reads, string conversion, [Array.join])
    is modelled first, by executable functions.  Strings are byte strings
    holding UTF-8 text. *)

From Stdlib Require Import String Ascii List ZArith NArith Bool Lia.
From Stdlib Require Import DecimalString Permutation Sorted.
Import ListNotations.
Local Open Scope list_scope.
Local Open Scope string_scope.

(* ================================================================== *)
(** * JSON values, [JSON.stringify] and [JSON.parse] *)
(* ================================================================== *)

Module JSON.

(** A number is kept as the exact decimal its literal denotes:
    [0.d1 d2 ... dk * 10^point], negated when [negative]; [digits] has
    neither a leading nor a trailing zero and is empty for zero.  The
    engine rounds every literal to a binary64; the two print alike for
    every literal of at most 15 significant digits within the range of a
    binary64, which covers whatever a recipe holds.  Rounding itself is
    not modelled. *)
Record number := mkNumber {
  negative : bool;
  digits : list N;
  point : Z
}.

#[warnings="-register-all"] Inductive value :=
| JNull
| JBool (b : bool)
| JNum (n : number)
| JStr (s : string)
| JArr (elements : list value)
| JObj (members : list (string * value)).

Definition object := list (string * value).

(** ** Numbers as text: Number::toString, radix 10 *)

Definition digit_char (d : N) : ascii := ascii_of_N (48 + d).

Definition digits_string (ds : list N) : string :=
  string_of_list_ascii (map digit_char ds).

Definition zeros (n : Z) : string :=
  string_of_list_ascii (repeat "0"%char (Z.to_nat n)).

Definition N_to_string (n : N) : string :=
  NilZero.string_of_uint (N.to_uint n).

Definition Number_toString (x : number) : string :=
  match digits x with
  | [] => "0"
  | d1 :: rest =>
      let k := Z.of_nat (List.length (digits x)) in
      let n := point x in
      let sign := if negative x then "-" else EmptyString in
      sign ++
      (if (k <=? n)%Z && (n <=? 21)%Z then
         digits_string (digits x) ++ zeros (n - k)
       else if (0 <? n)%Z && (n <=? 21)%Z then
         digits_string (firstn (Z.to_nat n) (digits x)) ++ "." ++
         digits_string (skipn (Z.to_nat n) (digits x))
       else if (-6 <? n)%Z && (n <=? 0)%Z then
         "0." ++ zeros (- n) ++ digits_string (digits x)
       else
         let e := (n - 1)%Z in
         let esign := if (0 <=? e)%Z then "+" else "-" in
         let mant := match rest with
                     | [] => digits_string [d1]
                     | _ => digits_string [d1] ++ "." ++ digits_string rest
                     end in
         mant ++ "e" ++ esign ++ N_to_string (Z.abs_N e))
  end.

(** ** [JSON.stringify] (no replacer, no indentation) *)

Definition hex_char (d : N) : ascii :=
  if (d <? 10)%N then ascii_of_N (48 + d) else ascii_of_N (87 + d).

Definition dquote : ascii := "034"%char.

(** QuoteJSONString, one character at a time. *)
Definition quote_char (c : ascii) : string :=
  let n := N_of_ascii c in
  if (n =? 34)%N then String "\" (String dquote EmptyString)
  else if (n =? 92)%N then "\\"
  else if (n =? 8)%N then "\b"
  else if (n =? 12)%N then "\f"
  else if (n =? 10)%N then "\n"
  else if (n =? 13)%N then "\r"
  else if (n =? 9)%N then "\t"
  else if (n <? 32)%N then
    "\u00" ++ String (hex_char (n / 16)) (String (hex_char (n mod 16)) EmptyString)
  else String c EmptyString.

Fixpoint quote_chars (s : string) : string :=
  match s with
  | EmptyString => EmptyString
  | String c rest => quote_char c ++ quote_chars rest
  end.

Definition quote (s : string) : string :=
  String dquote (quote_chars s ++ String dquote EmptyString).

Fixpoint stringify (v : value) : string :=
  match v with
  | JNull => "null"
  | JBool true => "true"
  | JBool false => "false"
  | JNum n => Number_toString n
  | JStr s => quote s
  | JArr l => "[" ++ String.concat "," (map stringify l) ++ "]"
  | JObj o =>
      "{" ++ String.concat ","
               (map (fun kv => quote (fst kv) ++ ":" ++ stringify (snd kv)) o)
          ++ "}"
  end.

(** ** Objects: own properties in the engine's order

    Array-index keys come first, in ascending numeric order, then every
    other key in the order it was first defined; defining a key again
    replaces its value in place. *)

Definition is_digit (c : ascii) : bool :=
  let n := N_of_ascii c in (48 <=? n)%N && (n <=? 57)%N.

Definition digit_value (c : ascii) : N := N_of_ascii c - 48.

Definition digits_to_N (ds : list N) : N :=
  fold_left (fun acc d => (10 * acc + d)%N) ds 0%N.

(** A canonical numeric string below 2^32 - 1. *)
Definition array_index (k : string) : option N :=
  let cs := list_ascii_of_string k in
  match cs with
  | [] => None
  | c :: rest =>
      if forallb is_digit cs
         && (negb (N_of_ascii c =? 48)%N || match rest with [] => true | _ => false end)
         && (List.length cs <=? 10)%nat
      then
        let n := digits_to_N (map digit_value cs) in
        if (n <? 4294967295)%N then Some n else None
      else None
  end.

Definition key_before (k k' : string) : bool :=
  match array_index k, array_index k' with
  | Some i, Some j => (i <? j)%N
  | Some _, None => true
  | None, _ => false
  end.

Fixpoint set_member (k : string) (v : value) (o : object) : object :=
  match o with
  | [] => [(k, v)]
  | (k', v') :: rest =>
      if String.eqb k k' then (k, v) :: rest
      else if key_before k k' then (k, v) :: (k', v') :: rest
      else (k', v') :: set_member k v rest
  end.

Fixpoint get_member (k : string) (o : object) : option value :=
  match o with
  | [] => None
  | (k', v) :: rest => if String.eqb k k' then Some v else get_member k rest
  end.

(** ** [JSON.parse] (no reviver)

    One pass over the text, one character per step, with a stack of the
    containers that are still open.  [None] stands for the [SyntaxError]
    the engine throws. *)

Inductive frame :=
| InArray (elements : list value)                (* newest first *)
| InObject (members : object) (key : option string).

Inductive position :=
| Value             (* a value has to start here *)
| FirstElement      (* just after '[': a value or ']' *)
| FirstKey          (* just after '{': a key or '}' *)
| Key               (* after ',' in an object *)
| Colon             (* after a key *)
| Next              (* after a value inside a container *)
| Done (v : value). (* the text's value is complete *)

Inductive number_state :=
| NMinus | NZero | NInt | NDot | NFrac | NExp | NExpSign | NExpDigits.

Record number_scan := mkNumberScan {
  n_state : number_state;
  n_negative : bool;
  n_int : list N;       (* newest first *)
  n_frac : list N;      (* newest first *)
  e_negative : bool;
  e_digits : list N     (* newest first *)
}.

Inductive string_state :=
| SPlain
| SEscape
| SUnicode (hex : list N).   (* the digits of \uXXXX read so far, newest first *)

Record string_scan := mkStringScan {
  s_state : string_state;
  s_bytes : list ascii;       (* newest first *)
  s_high : option N           (* an escaped high surrogate waiting for its low half *)
}.

Inductive scanning :=
| Idle
| Literal (rest : list ascii) (v : value)
| InString (s : string_scan)
| InNumber (n : number_scan).

Record state := mkState {
  stack : list frame;
  pos : position;
  scan : scanning
}.

Definition is_whitespace (c : ascii) : bool :=
  let n := N_of_ascii c in
  (n =? 32)%N || (n =? 9)%N || (n =? 10)%N || (n =? 13)%N.

(** A value is complete: hand it to the innermost open container. *)
Definition deliver (v : value) (fs : list frame) : option state :=
  match fs with
  | [] => Some (mkState [] (Done v) Idle)
  | InArray es :: fs' => Some (mkState (InArray (v :: es) :: fs') Next Idle)
  | InObject ms (Some k) :: fs' =>
      Some (mkState (InObject (set_member k v ms) None :: fs') Next Idle)
  | InObject _ None :: _ => None
  end.

(** *** Numbers *)

Fixpoint strip_zeros (ds : list N) : list N :=
  match ds with
  | 0%N :: rest => strip_zeros rest
  | _ => ds
  end.

Definition finish_number (a : number_scan) : number :=
  let all := (rev (n_int a) ++ rev (n_frac a))%list in
  let lead := strip_zeros all in
  let sig := rev (strip_zeros (rev lead)) in
  let e := Z.of_N (digits_to_N (rev (e_digits a))) in
  let e := if e_negative a then (- e)%Z else e in
  match sig with
  | [] => mkNumber (n_negative a) [] 0
  | _ => mkNumber (n_negative a) sig
           (Z.of_nat (List.length (n_int a)) + e
            - Z.of_nat (List.length all - List.length lead))
  end.

Definition accepting (s : number_state) : bool :=
  match s with
  | NZero | NInt | NFrac | NExpDigits => true
  | _ => false
  end.

Inductive number_step :=
| More (a : number_scan)
| Stop        (* the character is not part of the number *)
| Bad.

Definition is_exp (c : ascii) : bool :=
  let n := N_of_ascii c in (n =? 101)%N || (n =? 69)%N.

Definition step_number (a : number_scan) (c : ascii) : number_step :=
  let n := N_of_ascii c in
  let d := digit_value c in
  let to s := mkNumberScan s (n_negative a) (n_int a) (n_frac a)
                (e_negative a) (e_digits a) in
  let int_digit s := mkNumberScan s (n_negative a) (d :: n_int a) (n_frac a)
                       (e_negative a) (e_digits a) in
  let frac_digit := mkNumberScan NFrac (n_negative a) (n_int a) (d :: n_frac a)
                      (e_negative a) (e_digits a) in
  let exp_digit := mkNumberScan NExpDigits (n_negative a) (n_int a) (n_frac a)
                     (e_negative a) (d :: e_digits a) in
  match n_state a with
  | NMinus =>
      if (n =? 48)%N then More (int_digit NZero)
      else if is_digit c then More (int_digit NInt) else Bad
  | NZero =>
      if (n =? 46)%N then More (to NDot)
      else if is_exp c then More (to NExp) else Stop
  | NInt =>
      if is_digit c then More (int_digit NInt)
      else if (n =? 46)%N then More (to NDot)
      else if is_exp c then More (to NExp) else Stop
  | NDot => if is_digit c then More frac_digit else Bad
  | NFrac =>
      if is_digit c then More frac_digit
      else if is_exp c then More (to NExp) else Stop
  | NExp =>
      if (n =? 43)%N then More (to NExpSign)
      else if (n =? 45)%N then
        More (mkNumberScan NExpSign (n_negative a) (n_int a) (n_frac a)
                true (e_digits a))
      else if is_digit c then More exp_digit else Bad
  | NExpSign => if is_digit c then More exp_digit else Bad
  | NExpDigits => if is_digit c then More exp_digit else Stop
  end.

(** *** Strings *)

Definition utf8 (cp : N) : list ascii :=
  if (cp <? 128)%N then [ascii_of_N cp]
  else if (cp <? 2048)%N then
    [ascii_of_N (192 + cp / 64); ascii_of_N (128 + cp mod 64)]
  else if (cp <? 65536)%N then
    [ascii_of_N (224 + cp / 4096); ascii_of_N (128 + (cp / 64) mod 64);
     ascii_of_N (128 + cp mod 64)]
  else
    [ascii_of_N (240 + cp / 262144); ascii_of_N (128 + (cp / 4096) mod 64);
     ascii_of_N (128 + (cp / 64) mod 64); ascii_of_N (128 + cp mod 64)].

(** The bytes read so far, with a waiting high surrogate written out. *)
Definition flushed (a : string_scan) : list ascii :=
  match s_high a with
  | Some h => (rev (utf8 h) ++ s_bytes a)%list
  | None => s_bytes a
  end.

Definition add_byte (a : string_scan) (c : ascii) : string_scan :=
  mkStringScan SPlain (c :: flushed a) None.

(** A \uXXXX escape has been read. *)
Definition add_unit (a : string_scan) (u : N) : string_scan :=
  match s_high a with
  | Some h =>
      if (56320 <=? u)%N && (u <=? 57343)%N then
        mkStringScan SPlain
          (rev (utf8 (65536 + (h - 55296) * 1024 + (u - 56320))) ++ s_bytes a)%list
          None
      else if (55296 <=? u)%N && (u <=? 56319)%N then
        mkStringScan SPlain (flushed a) (Some u)
      else mkStringScan SPlain (rev (utf8 u) ++ flushed a)%list None
  | None =>
      if (55296 <=? u)%N && (u <=? 56319)%N then
        mkStringScan SPlain (s_bytes a) (Some u)
      else mkStringScan SPlain (rev (utf8 u) ++ s_bytes a)%list None
  end.

Definition hex_value (c : ascii) : option N :=
  let n := N_of_ascii c in
  if is_digit c then Some (n - 48)%N
  else if (97 <=? n)%N && (n <=? 102)%N then Some (n - 87)%N
  else if (65 <=? n)%N && (n <=? 70)%N then Some (n - 55)%N
  else None.

Definition escape_byte (c : ascii) : option ascii :=
  let n := N_of_ascii c in
  if (n =? 34)%N || (n =? 92)%N || (n =? 47)%N then Some c
  else if (n =? 98)%N then Some (ascii_of_N 8)
  else if (n =? 102)%N then Some (ascii_of_N 12)
  else if (n =? 110)%N then Some (ascii_of_N 10)
  else if (n =? 114)%N then Some (ascii_of_N 13)
  else if (n =? 116)%N then Some (ascii_of_N 9)
  else None.

Inductive string_step :=
| SMore (a : string_scan)
| SEnd (s : string)
| SBad.

Definition step_string (a : string_scan) (c : ascii) : string_step :=
  let n := N_of_ascii c in
  match s_state a with
  | SPlain =>
      if (n =? 34)%N then SEnd (string_of_list_ascii (rev (flushed a)))
      else if (n =? 92)%N then SMore (mkStringScan SEscape (s_bytes a) (s_high a))
      else if (n <? 32)%N then SBad
      else SMore (add_byte a c)
  | SEscape =>
      if (n =? 117)%N then SMore (mkStringScan (SUnicode []) (s_bytes a) (s_high a))
      else match escape_byte c with
           | Some b => SMore (add_byte a b)
           | None => SBad
           end
  | SUnicode hs =>
      match hex_value c with
      | None => SBad
      | Some h =>
          match hs with
          | [h2; h1; h0] =>
              SMore (add_unit a (h0 * 4096 + h1 * 256 + h2 * 16 + h))
          | _ => SMore (mkStringScan (SUnicode (h :: hs)) (s_bytes a) (s_high a))
          end
      end
  end.

(** A string token is complete: a key where one is due, a value otherwise. *)
Definition deliver_string (s : string) (st : state) : option state :=
  match pos st with
  | FirstKey | Key =>
      match stack st with
      | InObject ms None :: fs => Some (mkState (InObject ms (Some s) :: fs) Colon Idle)
      | _ => None
      end
  | _ => deliver (JStr s) (stack st)
  end.

(** *** Between tokens *)

Definition start_value (c : ascii) (fs : list frame) : option state :=
  let n := N_of_ascii c in
  if (n =? 123)%N then Some (mkState (InObject [] None :: fs) FirstKey Idle)
  else if (n =? 91)%N then Some (mkState (InArray [] :: fs) FirstElement Idle)
  else if (n =? 34)%N then
    Some (mkState fs Value (InString (mkStringScan SPlain [] None)))
  else if (n =? 45)%N then
    Some (mkState fs Value (InNumber (mkNumberScan NMinus true [] [] false [])))
  else if (n =? 48)%N then
    Some (mkState fs Value (InNumber (mkNumberScan NZero false [0%N] [] false [])))
  else if is_digit c then
    Some (mkState fs Value
            (InNumber (mkNumberScan NInt false [digit_value c] [] false [])))
  else if (n =? 116)%N then
    Some (mkState fs Value (Literal (list_ascii_of_string "rue") (JBool true)))
  else if (n =? 102)%N then
    Some (mkState fs Value (Literal (list_ascii_of_string "alse") (JBool false)))
  else if (n =? 110)%N then
    Some (mkState fs Value (Literal (list_ascii_of_string "ull") JNull))
  else None.

Definition close_array (fs : list frame) : option state :=
  match fs with
  | InArray es :: fs' => deliver (JArr (rev es)) fs'
  | _ => None
  end.

Definition close_object (fs : list frame) : option state :=
  match fs with
  | InObject ms None :: fs' => deliver (JObj ms) fs'
  | _ => None
  end.

Definition step_idle (st : state) (c : ascii) : option state :=
  let n := N_of_ascii c in
  let fs := stack st in
  if is_whitespace c then Some st
  else
    match pos st with
    | Value => start_value c fs
    | FirstElement => if (n =? 93)%N then close_array fs else start_value c fs
    | FirstKey =>
        if (n =? 125)%N then close_object fs
        else if (n =? 34)%N then
          Some (mkState fs FirstKey (InString (mkStringScan SPlain [] None)))
        else None
    | Key =>
        if (n =? 34)%N then
          Some (mkState fs Key (InString (mkStringScan SPlain [] None)))
        else None
    | Colon => if (n =? 58)%N then Some (mkState fs Value Idle) else None
    | Next =>
        if (n =? 44)%N then
          match fs with
          | InArray _ :: _ => Some (mkState fs Value Idle)
          | InObject _ None :: _ => Some (mkState fs Key Idle)
          | _ => None
          end
        else if (n =? 93)%N then close_array fs
        else if (n =? 125)%N then close_object fs
        else None
    | Done _ => None
    end.

Definition step (st : state) (c : ascii) : option state :=
  match scan st with
  | Idle => step_idle st c
  | Literal rest v =>
      match rest with
      | [c'] => if Ascii.eqb c c' then deliver v (stack st) else None
      | c' :: rest' =>
          if Ascii.eqb c c' then Some (mkState (stack st) (pos st) (Literal rest' v))
          else None
      | [] => None
      end
  | InString a =>
      match step_string a c with
      | SMore a' => Some (mkState (stack st) (pos st) (InString a'))
      | SEnd s => deliver_string s st
      | SBad => None
      end
  | InNumber a =>
      match step_number a c with
      | More a' => Some (mkState (stack st) (pos st) (InNumber a'))
      | Stop =>
          match deliver (JNum (finish_number a)) (stack st) with
          | Some st' => step_idle st' c
          | None => None
          end
      | Bad => None
      end
  end.

Fixpoint run (st : state) (cs : list ascii) : option state :=
  match cs with
  | [] => Some st
  | c :: rest =>
      match step st c with
      | Some st' => run st' rest
      | None => None
      end
  end.

(** The end of the text: a number may still be open. *)
Definition finish (st : state) : option value :=
  match scan st with
  | Idle => match pos st with Done v => Some v | _ => None end
  | InNumber a =>
      if accepting (n_state a) then
        match deliver (JNum (finish_number a)) (stack st) with
        | Some st' => match pos st' with Done v => Some v | _ => None end
        | None => None
        end
      else None
  | _ => None
  end.

Definition parse (text : string) : option value :=
  match run (mkState [] Value Idle) (list_ascii_of_string text) with
  | Some st => finish st
  | None => None
  end.

(** ** Reading back what [stringify] wrote

    [parse] puts the members of an object in the engine's order, so what
    comes back is the value with every object rebuilt member by member. *)

Fixpoint number_free (v : value) : bool :=
  match v with
  | JNum _ => false
  | JArr l => forallb number_free l
  | JObj o => forallb (fun kv => number_free (snd kv)) o
  | _ => true
  end.

Fixpoint rebuilt (v : value) : value :=
  match v with
  | JArr l => JArr (map rebuilt l)
  | JObj o =>
      JObj (fold_left (fun acc kv => set_member (fst kv) (rebuilt (snd kv)) acc)
              o [])
  | _ => v
  end.

End JSON.


(* ================================================================== *)
(** * The engine: thrown values, conversions, property reads *)
(* ================================================================== *)

Module JS.
Import JSON.

(** What a [throw] carries.  [catch] only looks at whether the value is
    an instance of [Error] and, if so, at its message. *)
Inductive thrown :=
| ErrorObject (name message : string)
| NotAnError.

Definition Error (message : string) : thrown := ErrorObject "Error" message.
Definition TypeError (message : string) : thrown := ErrorObject "TypeError" message.
Definition SyntaxError (message : string) : thrown := ErrorObject "SyntaxError" message.

(** A normal completion, or an abrupt one. *)
Definition completion (A : Type) : Type := (thrown + A)%type.

Definition and_then {A B} (c : completion A) (f : A -> completion B) : completion B :=
  match c with
  | inl e => inl e
  | inr a => f a
  end.

(** [undefined], or a value that came out of [JSON.parse]. *)
Definition jsval := option value.

Definition join_by (f : value -> completion string) (sep : string)
  : list value -> completion string :=
  fix go (l : list value) : completion string :=
    match l with
    | [] => inr EmptyString
    | x :: rest =>
        match rest with
        | [] => f x
        | _ :: _ =>
            match f x with
            | inl e => inl e
            | inr a =>
                match go rest with
                | inl e => inl e
                | inr b => inr (a ++ sep ++ b)
                end
            end
        end
    end.

(** ToString.  An array converts through its [join]; a plain object
    through Object.prototype.toString, unless it has an own property
    [toString], which after [JSON.parse] is never a function and makes
    the conversion throw. *)
Fixpoint ToString (v : value) : completion string :=
  match v with
  | JNull => inr "null"
  | JBool true => inr "true"
  | JBool false => inr "false"
  | JNum n => inr (Number_toString n)
  | JStr s => inr s
  | JArr l =>
      join_by (fun x => match x with
                        | JNull => inr EmptyString
                        | _ => ToString x
                        end) "," l
  | JObj o =>
      match get_member "toString" o with
      | Some _ => inl (TypeError "Cannot convert object to primitive value")
      | None => inr "[object Object]"
      end
  end.

Definition ToString_val (v : jsval) : completion string :=
  match v with
  | None => inr "undefined"
  | Some x => ToString x
  end.

(** Array.prototype.join: [null] elements count as the empty string. *)
Definition Array_join (l : list value) (sep : string) : completion string :=
  join_by (fun x => match x with
                    | JNull => inr EmptyString
                    | _ => ToString x
                    end) sep l.

(** [v.join(sep)] where [v] was read out of parsed JSON: only an array
    has a callable [join]. *)
Definition call_join (what : string) (v : jsval) (sep : string) : completion string :=
  match v with
  | None => inl (TypeError "Cannot read properties of undefined (reading 'join')")
  | Some JNull => inl (TypeError "Cannot read properties of null (reading 'join')")
  | Some (JArr l) => Array_join l sep
  | Some _ => inl (TypeError (what ++ ".join is not a function"))
  end.

(** [v.name] for the names the handler reads ([choices], [message],
    [content]); no prototype defines any of them, so only an object's
    own property can answer. *)
Definition Get (v : jsval) (name : string) : completion jsval :=
  match v with
  | None =>
      inl (TypeError ("Cannot read properties of undefined (reading '" ++ name ++ "')"))
  | Some JNull =>
      inl (TypeError ("Cannot read properties of null (reading '" ++ name ++ "')"))
  | Some (JObj o) => inr (get_member name o)
  | Some _ => inr None
  end.

(** [v[i]]; on a string, the character at [i] (here its [i]-th byte). *)
Definition GetIndex (v : jsval) (i : nat) : completion jsval :=
  let key := N_to_string (N.of_nat i) in
  match v with
  | None =>
      inl (TypeError ("Cannot read properties of undefined (reading '" ++ key ++ "')"))
  | Some JNull =>
      inl (TypeError ("Cannot read properties of null (reading '" ++ key ++ "')"))
  | Some (JArr l) => inr (nth_error l i)
  | Some (JStr s) =>
      inr (option_map (fun c => JStr (String c EmptyString)) (String.get i s))
  | Some (JObj o) => inr (get_member key o)
  | Some _ => inr None
  end.

(** [const { name } = v]. *)
Definition destructure (v : value) (name : string) : completion jsval :=
  match v with
  | JNull =>
      inl (TypeError ("Cannot destructure property '" ++ name ++
                      "' of '(intermediate value)' as it is null."))
  | JObj o => inr (get_member name o)
  | _ => inr None
  end.

(** [JSON.parse(x)]: the argument is converted to a string first. *)
Definition JSON_parse (x : jsval) : completion value :=
  match ToString_val x with
  | inl e => inl e
  | inr text =>
      match parse text with
      | Some v => inr v
      | None => inl (SyntaxError "Unexpected token in JSON")
      end
  end.

(** [!s] for a string or [undefined]. *)
Definition falsy (s : option string) : bool :=
  match s with
  | None => true
  | Some EmptyString => true
  | Some _ => false
  end.

(** [error instanceof Error ? error.message : fallback] *)
Definition message_or (error : thrown) (fallback : string) : string :=
  match error with
  | ErrorObject _ message => message
  | NotAnError => fallback
  end.

(** A string or [undefined] inside a template literal. *)
Definition interpolate (s : option string) : string :=
  match s with
  | None => "undefined"
  | Some t => t
  end.

(** ** String.prototype.trim

    White space and line terminators, by their UTF-8 encodings: the ASCII
    ones (tab, line feed, vertical tab, form feed, carriage return, space),
    U+00A0, U+1680, U+2000 to U+200A, U+2028, U+2029, U+202F, U+205F,
    U+3000 and U+FEFF. *)

Definition ws1 (a : N) : bool :=
  ((9 <=? a) && (a <=? 13) || (a =? 32))%N.

Definition ws2 (a b : N) : bool := ((a =? 194) && (b =? 160))%N.

Definition ws3 (a b c : N) : bool :=
  ((a =? 225) && (b =? 154) && (c =? 128)
   || (a =? 226) && (b =? 128)
      && ((128 <=? c) && (c <=? 138) || (c =? 168) || (c =? 169) || (c =? 175))
   || (a =? 226) && (b =? 129) && (c =? 159)
   || (a =? 227) && (b =? 128) && (c =? 128)
   || (a =? 239) && (b =? 187) && (c =? 191))%N.

(** Drop the white space at the head of the bytes; with [forward] false
    the bytes are a text read from its end, and so is each encoding. *)
Fixpoint strip (forward : bool) (cs : list ascii) : list ascii :=
  match cs with
  | [] => []
  | a :: r1 =>
      if ws1 (N_of_ascii a) then strip forward r1
      else
        match r1 with
        | [] => cs
        | b :: r2 =>
            if (if forward then ws2 (N_of_ascii a) (N_of_ascii b)
                else ws2 (N_of_ascii b) (N_of_ascii a))
            then strip forward r2
            else
              match r2 with
              | [] => cs
              | c :: r3 =>
                  if (if forward
                      then ws3 (N_of_ascii a) (N_of_ascii b) (N_of_ascii c)
                      else ws3 (N_of_ascii c) (N_of_ascii b) (N_of_ascii a))
                  then strip forward r3
                  else cs
              end
        end
  end.

Definition trim (s : string) : string :=
  string_of_list_ascii
    (rev (strip false (rev (strip true (list_ascii_of_string s))))).

(** [l.includes(x)] on an array of strings. *)
Definition includes (l : list string) (x : string) : bool :=
  existsb (String.eqb x) l.

(** Whether a value read out of parsed JSON counts as true. *)
Definition truthy (v : value) : bool :=
  match v with
  | JNull => false
  | JBool b => b
  | JNum n => match digits n with [] => false | _ => true end
  | JStr EmptyString => false
  | JStr _ => true
  | JArr _ => true
  | JObj _ => true
  end.

End JS.

(* ================================================================== *)
(** * HTTP messages and the world around one invocation *)
(* ================================================================== *)

Module Http.
Import JSON JS.

Definition headers := list (string * string).

(** The request as the handler reads it: its method and its body. *)
Record Request := mkRequest {
  method : string;
  payload : string
}.

(** [new Response(body, { status, headers })]; [body = None] is [null]. *)
Record Response := mkResponse {
  body : option string;
  status : N;
  response_headers : headers
}.

(** The arguments of one [fetch]. *)
Record fetch_request := mkFetch {
  url : string;
  fetch_method : string;
  fetch_headers : headers;
  fetch_body : string
}.

(** What the upstream gateway sent back, body read in full. *)
Record upstream := mkUpstream {
  upstream_status : N;
  upstream_text : string
}.

Definition ok (r : upstream) : bool :=
  (200 <=? upstream_status r)%N && (upstream_status r <=? 299)%N.

(** [fetch] rejects (network failure) or resolves with a response. *)
Inductive fetch_outcome :=
| Rejects (e : thrown)
| Resolves (r : upstream).

(** Process configuration: the environment variables. *)
Definition environment := list (string * string).

Fixpoint Deno_env_get (env : environment) (name : string) : option string :=
  match env with
  | [] => None
  | (k, v) :: rest => if String.eqb k name then Some v else Deno_env_get rest name
  end.

(** [await req.json()] and [await response.json()]. *)
Definition parse_body (text : string) : completion value :=
  match parse text with
  | Some v => inr v
  | None => inl (SyntaxError "Unexpected token in JSON")
  end.

Definition req_json (req : Request) : completion value := parse_body (payload req).
Definition response_json (r : upstream) : completion value :=
  parse_body (upstream_text r).

End Http.

(* ================================================================== *)
(** * The edge function generate-recipe *)
(* ================================================================== *)

Module Proxy.
Import JSON JS Http.

(** ** What one invocation does besides answering *)

Inductive console_arg :=
| Text (s : string)
| Num (n : N)
| Val (v : jsval)
| Err (e : thrown).

Inductive event :=
| ConsoleLog (args : list console_arg)
| ConsoleError (args : list console_arg)
| Fetch (rq : fetch_request) (outcome : fetch_outcome).

(** A computation completes (normally or by a throw) and leaves a trace. *)
Definition M (A : Type) : Type := (completion A * list event)%type.

Definition ret {A} (a : A) : M A := (inr a, []).

Definition bind {A B} (m : M A) (f : A -> M B) : M B :=
  match m with
  | (inl e, t) => (inl e, t)
  | (inr a, t) => let (r, t') := f a in (r, (t ++ t')%list)
  end.

Definition throw {A} (e : thrown) : M A := (inl e, []).

Definition lift {A} (c : completion A) : M A := (c, []).

Definition try_catch {A} (m : M A) (h : thrown -> M A) : M A :=
  match m with
  | (inl e, t) => let (r, t') := h e in (r, (t ++ t')%list)
  | (inr a, t) => (inr a, t)
  end.

Definition console_log (args : list console_arg) : M unit :=
  (inr tt, [ConsoleLog args]).

Definition console_error (args : list console_arg) : M unit :=
  (inr tt, [ConsoleError args]).

Definition await_fetch (fetch : fetch_request -> fetch_outcome) (rq : fetch_request)
  : M upstream :=
  match fetch rq with
  | Rejects e => (inl e, [Fetch rq (Rejects e)])
  | Resolves r => (inr r, [Fetch rq (Resolves r)])
  end.

Declare Scope js_scope.
Delimit Scope js_scope with js.
Notation "x <- m ;; k" := (bind m (fun x => k))
  (at level 61, m at next level, right associativity) : js_scope.
Notation "m ;; k" := (bind m (fun _ => k))
  (at level 61, right associativity) : js_scope.

(** ** The source's constants *)

(** A source text written with ' where the source has a double quote. *)
Definition template (s : string) : string :=
  string_of_list_ascii
    (map (fun c => if Ascii.eqb c "'"%char then dquote else c)
         (list_ascii_of_string s)).

Definition corsHeaders : headers :=
  [("Access-Control-Allow-Origin", "*");
   ("Access-Control-Allow-Headers",
    "authorization, x-client-info, apikey, content-type")].

Definition systemPrompt : string := template
"You are an expert chef AI that creates delicious recipes based on available ingredients. 
When given a list of ingredients, create a complete, detailed recipe that:
- Has a creative and appetizing name
- Lists all ingredients with measurements
- Provides clear step-by-step cooking instructions
- Includes estimated cooking time (in minutes)
- Specifies difficulty level (Easy, Medium, or Hard)
- Includes nutritional macros per serving (calories, protein, carbs, fats)
- Makes the most of the provided ingredients

Format your response as JSON with this structure:
{
  'name': 'Recipe Name',
  'cookingTime': 30,
  'difficulty': 'Easy',
  'servings': 4,
  'macros': {
    'calories': 450,
    'protein': 35,
    'carbs': 40,
    'fats': 15
  },
  'ingredients': ['ingredient 1', 'ingredient 2'],
  'instructions': ['step 1', 'step 2']
}".

(** [{ ...corsHeaders, 'Content-Type': 'application/json' }] *)
Definition json_headers : headers :=
  (corsHeaders ++ [("Content-Type", "application/json")])%list.

(** The object given to [JSON.stringify] for the body of the upstream
    call; [user_content] is the text of the user turn. *)
Definition chat_request (user_content : string) : value :=
  JObj
    [("model", JStr "google/gemini-2.5-flash");
     ("messages",
      JArr
        [JObj [("role", JStr "system"); ("content", JStr systemPrompt)];
         JObj [("role", JStr "user"); ("content", JStr user_content)]]);
     ("response_format", JObj [("type", JStr "json_object")])].

(** The arguments of the one [fetch]. *)
Definition upstream_request (key : option string) (user_content : string)
  : fetch_request :=
  mkFetch "https://ai.gateway.lovable.dev/v1/chat/completions"
    "POST"
    [("Authorization", "Bearer " ++ interpolate key);
     ("Content-Type", "application/json")]
    (stringify (chat_request user_content)).

(** [data.choices[0].message.content] *)
Definition message_content (data : value) : completion jsval :=
  and_then (Get (Some data) "choices") (fun choices =>
  and_then (GetIndex choices 0) (fun choice =>
  and_then (Get choice "message") (fun message =>
  Get message "content"))).

(** [JSON.stringify({ error: message })] *)
Definition error_body (message : string) : string :=
  stringify (JObj [("error", JStr message)]).

(** ** The handler given to [serve] *)

Definition handler (env : environment) (fetch : fetch_request -> fetch_outcome)
    (req : Request) : M Response :=
  (if String.eqb (method req) "OPTIONS" then
     ret (mkResponse None 200 corsHeaders)
   else
     try_catch
       (parsed <- lift (req_json req) ;;
        ingredients <- lift (destructure parsed "ingredients") ;;
        console_log [Text "Generating recipe for ingredients:"; Val ingredients] ;;
        let LOVABLE_API_KEY := Deno_env_get env "LOVABLE_API_KEY" in
        (if falsy LOVABLE_API_KEY
         then throw (Error "LOVABLE_API_KEY is not configured")
         else ret tt) ;;
        joined <- lift (call_join "ingredients" ingredients ", ") ;;
        response <- await_fetch fetch
          (upstream_request LOVABLE_API_KEY
             ("Create a recipe using these ingredients: " ++ joined)) ;;
        if negb (ok response) then
          let errorText := upstream_text response in
          console_error [Text "AI gateway error:"; Num (upstream_status response);
                         Text errorText] ;;
          if (upstream_status response =? 429)%N then
            ret (mkResponse
                   (Some (error_body "Rate limit exceeded. Please try again later."))
                   429 json_headers)
          else if (upstream_status response =? 402)%N then
            ret (mkResponse
                   (Some (error_body
                            "Payment required. Please add credits to your workspace."))
                   402 json_headers)
          else
            throw (Error ("AI gateway error: "
                          ++ N_to_string (upstream_status response)))
        else
          data <- lift (response_json response) ;;
          console_log [Text "AI response received"] ;;
          content <- lift (message_content data) ;;
          recipeData <- lift (JSON_parse content) ;;
          ret (mkResponse
                 (Some (stringify (JObj [("recipe", recipeData)])))
                 200 json_headers))
       (fun error =>
          console_error [Text "Error in generate-recipe function:"; Err error] ;;
          ret (mkResponse
                 (Some (error_body (message_or error "An error occurred")))
                 500 json_headers)))%js.

(** ** The process: [serve] hands every request to the handler

    An invocation is a request together with what the world holds when it
    arrives: the configuration and the upstream's behaviour. *)

Record invocation := mkInvocation {
  at_env : environment;
  at_fetch : fetch_request -> fetch_outcome;
  at_request : Request
}.

Definition invoke (i : invocation) : M Response :=
  handler (at_env i) (at_fetch i) (at_request i).

Definition serve (arrivals : list invocation) : list (M Response) :=
  map invoke arrivals.

(** ** Vocabulary for the statements *)

Definition Substring (needle hay : string) : Prop :=
  exists before after, hay = before ++ needle ++ after.

(** The request gets as far as the upstream call, [joined] being its
    ingredients joined. *)
Definition reaches_upstream (env : environment) (req : Request) (joined : string)
  : Prop :=
  String.eqb (method req) "OPTIONS" = false
  /\ exists parsed ingredients,
       req_json req = inr parsed
       /\ destructure parsed "ingredients" = inr ingredients
       /\ falsy (Deno_env_get env "LOVABLE_API_KEY") = false
       /\ call_join "ingredients" ingredients ", " = inr joined.


(** The answer of the [catch] block for the thrown value [error]. *)
Definition caught (error : thrown) : Response :=
  mkResponse (Some (error_body (message_or error "An error occurred")))
    500 json_headers.

(** The upstream calls of a trace, and what went to the console. *)
Fixpoint upstream_calls (t : list event) : list (fetch_request * fetch_outcome) :=
  match t with
  | [] => []
  | Fetch rq out :: rest => (rq, out) :: upstream_calls rest
  | _ :: rest => upstream_calls rest
  end.

Fixpoint console (t : list event) : list event :=
  match t with
  | [] => []
  | Fetch _ _ :: rest => console rest
  | ev :: rest => ev :: console rest
  end.

End Proxy.

(* ================================================================== *)
(** * The saved_recipes table *)
(* ================================================================== *)

Module Store.

(** interface Recipe (Recipe.tsx) *)
Record Macros := mkMacros {
  calories : JSON.number;
  protein : JSON.number;
  carbs : JSON.number;
  fats : JSON.number
}.

Record Recipe := mkRecipe {
  name : string;
  cookingTime : JSON.number;
  difficulty : string;
  servings : JSON.number;
  macros : Macros;
  ingredients : list string;
  instructions : list string
}.

Definition uuid := N.

(** One row of public.saved_recipes. *)
Record row := mkRow {
  id : uuid;
  user_id : uuid;
  recipe_name : string;
  recipe_data : Recipe;
  is_favorite : bool;
  created_at : N;
  updated_at : N
}.

(** The table, the next value of gen_random_uuid() (a counter stands for
    it: the primary key keeps ids apart) and the value of now(). *)
Record table := mkTable {
  rows : list row;
  next_uuid : uuid;
  now : N
}.

(** What the client sends to insert; the other columns take their defaults. *)
Record new_row := mkNewRow {
  new_user_id : uuid;
  new_recipe_name : string;
  new_recipe_data : Recipe;
  new_is_favorite : bool
}.

(** The world a page talks to: who is signed in, the table, and whether
    the store answers at all ([Some message]: every call fails with it). *)
Record world := mkWorld {
  session : option uuid;
  saved_recipes : table;
  outage : option string
}.

Definition getUser (w : world) : option uuid := session w.

(** supabase.from(saved_recipes).insert(values), under the policy
    WITH CHECK (auth.uid() = user_id). *)
Definition insert (w : world) (v : new_row) : string + world :=
  match outage w with
  | Some message => inl message
  | None =>
      match session w with
      | Some caller =>
          if (caller =? new_user_id v)%N then
            let t := saved_recipes w in
            inr (mkWorld (session w)
                   (mkTable
                      (rows t ++
                       [mkRow (next_uuid t) (new_user_id v) (new_recipe_name v)
                          (new_recipe_data v) (new_is_favorite v) (now t) (now t)])%list
                      (next_uuid t + 1)%N (now t))
                   (outage w))
          else inl "new row violates row-level security policy"
      | None => inl "new row violates row-level security policy"
      end
  end.

(** ORDER BY created_at DESC; rows of equal age keep their order. *)
Fixpoint place (r : row) (l : list row) : list row :=
  match l with
  | [] => [r]
  | x :: rest =>
      if (created_at x <=? created_at r)%N then r :: x :: rest
      else x :: place r rest
  end.

Definition newest_first (l : list row) : list row := fold_right place [] l.

(** select * ... .eq(user_id, uid).order(created_at, descending), under the
    policy USING (auth.uid() = user_id). *)
Definition select_by_user (w : world) (uid : uuid) : string + list row :=
  match outage w with
  | Some message => inl message
  | None =>
      inr (newest_first
             (filter (fun r => (user_id r =? uid)%N)
                (filter (fun r => match session w with
                                  | Some caller => (caller =? user_id r)%N
                                  | None => false
                                  end)
                   (rows (saved_recipes w)))))
  end.

(** supabase.from(saved_recipes).delete().eq(id, target), under the policy
    USING (auth.uid() = user_id): a row the caller may not delete is not
    seen, and deleting nothing is no error. *)
Definition delete (w : world) (target : uuid) : string + world :=
  match outage w with
  | Some message => inl message
  | None =>
      let t := saved_recipes w in
      inr (mkWorld (session w)
             (mkTable
                (filter (fun r => negb ((id r =? target)%N
                                        && match session w with
                                           | Some caller => (caller =? user_id r)%N
                                           | None => false
                                           end))
                   (rows t))
                (next_uuid t) (now t))
             (outage w))
  end.

End Store.

(* ================================================================== *)
(** * The pages *)
(* ================================================================== *)

Module Pages.
Import Store.

Record toast := mkToast {
  title : string;
  description : string;
  destructive : bool
}.

(** [message || fallback] *)
Definition or_else (message fallback : string) : string :=
  match message with
  | EmptyString => fallback
  | _ => message
  end.

(** ** Recipe page *)

Record RecipePage := mkRecipePage {
  recipe : option Recipe;
  isSaving : bool;
  isFavoriting : bool;
  isSaved : bool;
  isFavorited : bool
}.

(** The page after the action has run to its end, the world, the toasts. *)
Definition handleSaveRecipe (st : RecipePage) (w : world)
  : RecipePage * world * list toast :=
  match recipe st with
  | None => (st, w, [])
  | Some recipe =>
      let attempt :=
        match getUser w with
        | None => inl "Not authenticated"
        | Some user => insert w (mkNewRow user (name recipe) recipe false)
        end in
      match attempt with
      | inr w' =>
          (mkRecipePage (Some recipe) false (isFavoriting st) true (isFavorited st),
           w',
           [mkToast "Recipe saved!" "You can find it in your saved recipes." false])
      | inl message =>
          (mkRecipePage (Some recipe) false (isFavoriting st) (isSaved st)
             (isFavorited st),
           w,
           [mkToast "Error" (or_else message "Failed to save recipe.") true])
      end
  end.

Definition handleFavoriteRecipe (st : RecipePage) (w : world)
  : RecipePage * world * list toast :=
  match recipe st with
  | None => (st, w, [])
  | Some recipe =>
      let attempt :=
        match getUser w with
        | None => inl "Not authenticated"
        | Some user => insert w (mkNewRow user (name recipe) recipe true)
        end in
      match attempt with
      | inr w' =>
          (mkRecipePage (Some recipe) (isSaving st) false (isSaved st) true,
           w',
           [mkToast "Added to favorites!" "Recipe saved to your favorites." false])
      | inl message =>
          (mkRecipePage (Some recipe) (isSaving st) false (isSaved st)
             (isFavorited st),
           w,
           [mkToast "Error" (or_else message "Failed to add to favorites.") true])
      end
  end.

(** ** SavedRecipes page *)

Record SavedRecipesPage := mkSavedRecipesPage {
  recipes : list row;
  isLoading : bool;
  activeTab : string
}.

Definition savedRecipes (st : SavedRecipesPage) : list row :=
  filter (fun r => negb (is_favorite r)) (recipes st).

Definition favoriteRecipes (st : SavedRecipesPage) : list row :=
  filter (fun r => is_favorite r) (recipes st).

(** The page, the toasts, and where the page navigates to, if anywhere. *)
Definition fetchSavedRecipes (st : SavedRecipesPage) (w : world)
  : SavedRecipesPage * list toast * option string :=
  match getUser w with
  | None => (mkSavedRecipesPage (recipes st) false (activeTab st), [], Some "/auth")
  | Some user =>
      match select_by_user w user with
      | inr data => (mkSavedRecipesPage data false (activeTab st), [], None)
      | inl message =>
          (mkSavedRecipesPage (recipes st) false (activeTab st),
           [mkToast "Error" (or_else message "Failed to fetch saved recipes.") true],
           None)
      end
  end.

(** The two tabs: the value of each, its trigger's label, its content. *)
Inductive tab := SavedTab | FavoritesTab.

Definition tab_value (t : tab) : string :=
  match t with
  | SavedTab => "all"
  | FavoritesTab => "favorites"
  end.

Definition tab_label (st : SavedRecipesPage) (t : tab) : string :=
  match t with
  | SavedTab =>
      "Saved Recipes (" ++ JSON.N_to_string (N.of_nat (List.length (savedRecipes st))) ++ ")"
  | FavoritesTab =>
      "Favorites (" ++ JSON.N_to_string (N.of_nat (List.length (favoriteRecipes st))) ++ ")"
  end.

Definition tab_content (st : SavedRecipesPage) (t : tab) : list row :=
  match t with
  | SavedTab => savedRecipes st
  | FavoritesTab => favoriteRecipes st
  end.

Definition handleDelete (st : SavedRecipesPage) (w : world) (target : uuid)
  : SavedRecipesPage * world * list toast :=
  match delete w target with
  | inr w' =>
      (mkSavedRecipesPage
         (filter (fun r => negb (id r =? target)%N) (recipes st))
         (isLoading st) (activeTab st),
       w',
       [mkToast "Recipe deleted" "Recipe removed from your collection." false])
  | inl message =>
      (st, w, [mkToast "Error" (or_else message "Failed to delete recipe.") true])
  end.

(** What the page shows: the loading line, the card for an empty
    collection, or the two tabs. *)
Inductive view :=
| Loading
| NoSavedRecipes
| Tabs (saved favorites : list row).

Definition render (st : SavedRecipesPage) : view :=
  if isLoading st then Loading
  else
    match recipes st with
    | [] => NoSavedRecipes
    | _ => Tabs (savedRecipes st) (favoriteRecipes st)
    end.

(** ** The buttons of the Recipe page

    Save is disabled while saving and once saved, Add to Favorites while
    adding and once added; a disabled button does not run its handler. *)

Definition clickSave (st : RecipePage) (w : world)
  : RecipePage * world * list toast :=
  if isSaving st || isSaved st then (st, w, []) else handleSaveRecipe st w.

Definition clickFavorite (st : RecipePage) (w : world)
  : RecipePage * world * list toast :=
  if isFavoriting st || isFavorited st then (st, w, [])
  else handleFavoriteRecipe st w.

(** An action's outcome, taken apart. *)
Definition page_after {P : Type} (x : P * world * list toast) : P := fst (fst x).
Definition world_after {P : Type} (x : P * world * list toast) : world := snd (fst x).

End Pages.

(* ================================================================== *)
(** * The Index page: the ingredient list and the call of the function *)
(* ================================================================== *)

Module IndexPage.
Import JSON JS.

(** The state the handlers below read and write. *)
Record IndexPage := mkIndexPage {
  ingredients : list string;
  currentIngredient : string;
  isLoading : bool
}.

Definition initial : IndexPage := mkIndexPage [] EmptyString false.

(** onChange of the input *)
Definition setCurrentIngredient (st : IndexPage) (text : string) : IndexPage :=
  mkIndexPage (ingredients st) text (isLoading st).

Definition addIngredient (st : IndexPage) : IndexPage :=
  let trimmed := trim (currentIngredient st) in
  if negb (String.eqb trimmed EmptyString)
     && negb (includes (ingredients st) trimmed)
  then mkIndexPage (ingredients st ++ [trimmed])%list EmptyString (isLoading st)
  else st.

(** onKeyPress of the input *)
Definition onKeyPress (st : IndexPage) (key : string) : IndexPage :=
  if String.eqb key "Enter" then addIngredient st else st.

Definition removeIngredient (st : IndexPage) (ingredient : string) : IndexPage :=
  mkIndexPage
    (filter (fun i => negb (String.eqb i ingredient)) (ingredients st))
    (currentIngredient st) (isLoading st).

Definition handleReset (st : IndexPage) : IndexPage :=
  mkIndexPage [] EmptyString (isLoading st).

(** What supabase.functions.invoke resolves with: an error, or the data. *)
Inductive invoke_result :=
| InvokeError (message : string)
| InvokeData (data : jsval).

(** [data?.recipe] *)
Definition optional_recipe (data : jsval) : jsval :=
  match data with
  | Some (JObj o) => get_member "recipe" o
  | _ => None
  end.

(** What the action does besides changing the page. *)
Inductive effect :=
| Invoke (name : string) (body : value)
| LogError (label message : string)
| Toast (t : Pages.toast)
| Navigate (path : string) (state : value).

Definition generateRecipe (st : IndexPage)
    (invoke : string -> value -> invoke_result) : IndexPage * list effect :=
  match ingredients st with
  | [] =>
      (st,
       [Toast (Pages.mkToast "Add some ingredients"
                 "Please add at least one ingredient to generate a recipe." true)])
  | _ =>
      let body := JObj [("ingredients", JArr (map JStr (ingredients st)))] in
      let done := mkIndexPage (ingredients st) (currentIngredient st) false in
      match invoke "generate-recipe" body with
      | InvokeError message =>
          (done,
           [Invoke "generate-recipe" body;
            LogError "Error generating recipe:" message;
            Toast (Pages.mkToast "Error"
                     (Pages.or_else message
                        "Failed to generate recipe. Please try again.") true)])
      | InvokeData data =>
          match optional_recipe data with
          | Some recipe =>
              if truthy recipe then
                (done,
                 [Invoke "generate-recipe" body;
                  Toast (Pages.mkToast "Recipe generated!"
                           "Your delicious recipe is ready." false);
                  Navigate "/recipe" (JObj [("recipe", recipe)])])
              else (done, [Invoke "generate-recipe" body])
          | None => (done, [Invoke "generate-recipe" body])
          end
      end
  end.

(** What the user can do with the list. *)
Inductive action :=
| Typing (text : string)
| Add
| KeyPress (key : string)
| Remove (ingredient : string)
| Reset.

Definition act (st : IndexPage) (a : action) : IndexPage :=
  match a with
  | Typing text => setCurrentIngredient st text
  | Add => addIngredient st
  | KeyPress key => onKeyPress st key
  | Remove ingredient => removeIngredient st ingredient
  | Reset => handleReset st
  end.

(** A list as the page keeps it: no entry twice, none empty, none with
    white space around it. *)
Definition tidy (l : list string) : Prop :=
  NoDup l /\ Forall (fun x => x <> EmptyString /\ trim x = x) l.

(** The calls of the edge function among the effects. *)
Fixpoint invocations (effects : list effect) : list (string * value) :=
  match effects with
  | [] => []
  | Invoke name body :: rest => (name, body) :: invocations rest
  | _ :: rest => invocations rest
  end.

End IndexPage.

(** ** Sample invocations *)

Module Samples.
Import JSON JS Http Proxy.

Definition configured : environment := [("LOVABLE_API_KEY", "secret")].

Definition unconfigured : environment := [].

Definition chicken_rice : Request :=
  mkRequest "POST" (template "{'ingredients':['chicken','rice']}").

Definition no_ingredients : Request :=
  mkRequest "POST" (template "{'ingredients':[]}").

(** An upstream that answers every call with the same status and body. *)
Definition replies (status : N) (text : string) : fetch_request -> fetch_outcome :=
  fun _ => Resolves (mkUpstream status text).

(** A completion whose message content is [content], already quoted. *)
Definition completion_with (content : string) : string :=
  template "{'choices':[{'message':{'role':'assistant','content':" ++ content ++ "}}]}".

(** A recipe on the Recipe page, a signed-in user, a table with one row
    of somebody else. *)
Definition pilaf : Store.Recipe :=
  Store.mkRecipe "Chicken pilaf" (mkNumber false [3%N] 2) "Easy"
    (mkNumber false [4%N] 1)
    (Store.mkMacros (mkNumber false [4%N; 5%N] 3) (mkNumber false [3%N; 5%N] 2)
       (mkNumber false [4%N] 2) (mkNumber false [1%N; 5%N] 2))
    ["chicken"; "rice"] ["Brown the chicken."; "Simmer with the rice."].

Definition showing_pilaf : Pages.RecipePage :=
  Pages.mkRecipePage (Some pilaf) false false false false.

Definition signed_in : Store.world :=
  Store.mkWorld (Some 7%N)
    (Store.mkTable [Store.mkRow 0%N 3%N "Soup" pilaf true 10%N 10%N] 1%N 20%N)
    None.

(** An empty credential, a body that is no JSON, a preflight, a network
    that is down. *)
Definition empty_key : environment := [("LOVABLE_API_KEY", EmptyString)].

Definition rotated : environment := [("LOVABLE_API_KEY", "another")].

Definition not_json : Request := mkRequest "POST" "chicken, rice".

Definition preflight : Request := mkRequest "OPTIONS" EmptyString.

Definition offline : fetch_request -> fetch_outcome :=
  fun _ => Rejects (TypeError "error sending request").

(** A table shared by two users, the caller being the second; the same
    table without a session, and with the store refusing calls. *)
Definition two_cooks : Store.world :=
  Store.mkWorld (Some 7%N)
    (Store.mkTable
       [Store.mkRow 0%N 3%N "Soup" pilaf true 10%N 10%N;
        Store.mkRow 1%N 7%N "Chicken pilaf" pilaf false 12%N 12%N;
        Store.mkRow 2%N 7%N "Chicken pilaf" pilaf true 15%N 15%N]
       3%N 20%N)
    None.

Definition signed_out : Store.world :=
  Store.mkWorld None (Store.saved_recipes two_cooks) None.

Definition store_down : Store.world :=
  Store.mkWorld (Some 7%N) (Store.saved_recipes two_cooks)
    (Some "connection timed out").

Definition opening : Pages.SavedRecipesPage :=
  Pages.mkSavedRecipesPage [] true "all".

(** The Index page with one ingredient listed and another being typed. *)
Definition typing_chicken : IndexPage.IndexPage :=
  IndexPage.mkIndexPage ["rice"] "  chicken " false.

Definition chicken_and_rice : IndexPage.IndexPage :=
  IndexPage.mkIndexPage ["chicken"; "rice"] EmptyString false.

Definition function_fails : string -> value -> IndexPage.invoke_result :=
  fun _ _ => IndexPage.InvokeError "Edge Function returned a non-2xx status code".

(** The text posted upstream for chicken and rice, written out in full. *)
Definition chicken_rice_body : string :=
  template
    ("{'model':'google/gemini-2.5-flash','messages':[{'role':'system','conte"
     ++ "nt':'You are an expert chef AI that creates delicious recipes based "
     ++ "on available ingredients. \n"
     ++ "When given a list of ingredients, create a complete, detailed recipe "
     ++ "that:\n"
     ++ "- Has a creative and appetizing name\n"
     ++ "- Lists all ingredients with measurements\n"
     ++ "- Provides clear step-by-step cooking instructions\n"
     ++ "- Includes estimated cooking time (in minutes)\n"
     ++ "- Specifies difficulty level (Easy, Medium, or Hard)\n"
     ++ "- Includes nutritional macros per serving (calories, protein, carbs, "
     ++ "fats)\n"
     ++ "- Makes the most of the provided ingredients\n"
     ++ "\n"
     ++ "Format your response as JSON with this structure:\n"
     ++ "{\n"
     ++ "  \'name\': \'Recipe Name\',\n"
     ++ "  \'cookingTime\': 30,\n"
     ++ "  \'difficulty\': \'Easy\',\n"
     ++ "  \'servings\': 4,\n"
     ++ "  \'macros\': {\n"
     ++ "    \'calories\': 450,\n"
     ++ "    \'protein\': 35,\n"
     ++ "    \'carbs\': 40,\n"
     ++ "    \'fats\': 15\n"
     ++ "  },\n"
     ++ "  \'ingredients\': [\'ingredient 1\', \'ingredient 2\'],\n"
     ++ "  \'instructions\': [\'step 1\', \'step 2\']\n"
     ++ "}'},{'role':'user','content':'Create a recipe using these "
     ++ "ingredients: chicken, "
     ++ "rice'}],'response_format':{'type':'json_object'}}").

End Samples.

(* ================================================================== *)
(** * The engine model at work *)
(* ================================================================== *)

Import JSON JS Http Proxy.

Example parse_request_body :
  parse (template "{ 'ingredients': ['chicken', 'rice'] }")
  = Some (JObj [("ingredients", JArr [JStr "chicken"; JStr "rice"])]).
Proof. vm_compute. reflexivity. Qed.

Example parse_refuses :
  map parse
    [template "[1,]"; "01"; "tru"; template "{'a' 1}"; template "{'a':1,}";
     EmptyString; template "'abc"; "1 2"; "1."; ".5"; "-"; "1e"; "[1"; "undefined";
     "Sorry, I cannot help with that."]
  = repeat None 15.
Proof. vm_compute. reflexivity. Qed.

Example parse_then_stringify :
  map (fun text => option_map stringify (parse (template text)))
    ["1e2"; "-0"; "1.50"; "0.000001"; "1e-7"; "1E21"; " [ 1 , [ ] , { } ] ";
     "'a\nA\\\/'"; "'😀'";
     "{'b':1,'2':2,'a':3,'1':4,'b':5}"]
  = map (fun text => Some (template text))
      ["100"; "0"; "1.5"; "0.000001"; "1e-7"; "1e+21"; "[1,[],{}]";
       "'a\nA\\/'"; "'😀'";
       "{'1':4,'2':2,'b':5,'a':3}"].
Proof. vm_compute. reflexivity. Qed.

Example join_of_anything :
  option_map (fun v => call_join "ingredients" (Some v) ", ")
    (parse (template "[1, null, [2, [3]], {}, 'a', true]"))
  = Some (inr "1, , 2,3, [object Object], a, true").
Proof. vm_compute. reflexivity. Qed.

Example join_needs_an_array :
  map (fun text => option_map (fun v => call_join "ingredients" (Some v) ", ")
                     (parse (template text)))
    ["'chicken, rice'"; "{'join':1}"; "3"]
  = repeat (Some (inl (TypeError "ingredients.join is not a function"))) 3.
Proof. vm_compute. reflexivity. Qed.

Example message_content_read :
  option_map message_content
    (parse (template "{'choices':[{'message':{'content':'{}'}}]}"))
  = Some (inr (Some (JStr "{}"))).
Proof. vm_compute. reflexivity. Qed.

Example message_content_missing :
  option_map message_content (parse (template "{'choices':[]}"))
  = Some (inl (TypeError "Cannot read properties of undefined (reading 'message')")).
Proof. vm_compute. reflexivity. Qed.

(* ================================================================== *)
(** * Properties of the handler *)
(* ================================================================== *)

(** ** Following a run of the handler *)

Ltac monad_step H :=
  cbn [bind ret lift throw try_catch console_log console_error] in H.

Ltac case_scrutinee H :=
  match type of H with
  | context [match ?x with _ => _ end] =>
      lazymatch x with
      | context [match _ with _ => _ end] => fail
      | _ => destruct x eqn:?
      end
  end.

(** [H : handler env fetch req = (res, trace)] is taken apart along the
    source: one case for each outcome of each test and call. *)
Ltac handler_paths H :=
  unfold handler, await_fetch in H; monad_step H;
  repeat (case_scrutinee H; monad_step H);
  cbn [app] in H.

(** Which event of a trace the hypothesis [H] speaks of. *)
Ltac read_trace H :=
  cbn [In] in H;
  repeat (destruct H as [H | H]; try discriminate H);
  try contradiction.

(** With the outcome of every test and call among the hypotheses, the
    handler runs down a single path. *)
Ltac follow_path :=
  unfold handler, await_fetch;
  repeat first
    [ progress cbn [bind ret lift throw try_catch console_log console_error
                    negb fst snd app]
    | match goal with
      | H : ?a = _ |- context [?a] =>
          lazymatch a with
          | _ _ => rewrite H
          end
      end ].

Lemma ok_429 r : upstream_status r = 429%N -> ok r = false.
Proof. intros H. unfold ok. rewrite H. reflexivity. Qed.

Lemma ok_402 r : upstream_status r = 402%N -> ok r = false.
Proof. intros H. unfold ok. rewrite H. reflexivity. Qed.

(** An upstream call in the trace: every step before it went through, and
    it is the call the source builds. *)
Lemma call_inversion env fetch req rq out :
  In (Fetch rq out) (snd (handler env fetch req)) ->
  exists joined,
    reaches_upstream env req joined
    /\ rq = upstream_request (Deno_env_get env "LOVABLE_API_KEY")
              ("Create a recipe using these ingredients: " ++ joined)
    /\ fetch rq = out.
Proof.
  intros Hcall.
  destruct (handler env fetch req) as [res trace] eqn:Hrun.
  cbn [snd] in Hcall.
  handler_paths Hrun;
    apply (f_equal snd) in Hrun; cbn [snd] in Hrun; subst trace;
    read_trace Hcall;
    injection Hcall as <- <-;
    (eexists; split; [split; [eassumption | eauto 8] | split; [reflexivity | assumption]]).
Qed.

(** Conversely, a request that passes every step before the call makes it. *)
Lemma call_made env fetch req joined :
  reaches_upstream env req joined ->
  let rq := upstream_request (Deno_env_get env "LOVABLE_API_KEY")
              ("Create a recipe using these ingredients: " ++ joined) in
  In (Fetch rq (fetch rq)) (snd (handler env fetch req)).
Proof.
  intros [Hmethod (parsed & ingredients & Hparsed & Hing & Hkey & Hjoin)] rq.
  follow_path. fold rq.
  destruct (fetch rq) as [e | r]; follow_path; [cbn [In]; auto |].
  destruct (ok r); follow_path.
  - destruct (response_json r) as [e | data]; follow_path; [cbn [In]; auto |].
    destruct (message_content data) as [e | content]; follow_path;
      [cbn [In]; auto |].
    destruct (JSON_parse content); follow_path; cbn [In]; auto.
  - destruct (upstream_status r =? 429)%N; follow_path; [cbn [In]; auto |].
    destruct (upstream_status r =? 402)%N; follow_path; cbn [In]; auto.
Qed.

(** Every run ends with an answer; it carries the CORS headers, and its
    status is 200, 500, or the upstream's own 429 or 402. *)
Lemma answer_cases env fetch req :
  exists resp,
    fst (handler env fetch req) = inr resp
    /\ incl corsHeaders (response_headers resp)
    /\ (status resp = 200%N \/ status resp = 500%N
        \/ exists rq r,
             In (Fetch rq (Resolves r)) (snd (handler env fetch req))
             /\ status resp = upstream_status r
             /\ (upstream_status r = 429%N \/ upstream_status r = 402%N)).
Proof.
  assert (Hjson : incl corsHeaders json_headers)
    by (unfold json_headers; apply incl_appl, incl_refl).
  destruct (handler env fetch req) as [res trace] eqn:Hrun.
  handler_paths Hrun; injection Hrun as <- <-;
    (eexists; split; [reflexivity |];
     split; [first [exact Hjson | apply incl_refl] |]);
    cbn [status]; auto;
    right; right; do 2 eexists;
    (split; [cbn [In]; right; left; reflexivity |]);
    rewrite ?N.eqb_eq in *; auto.
Qed.

(** [join] on an array of strings is the strings with the separator
    between them. *)
Lemma Array_join_strings (l : list string) (sep : string) :
  Array_join (map JStr l) sep = inr (String.concat sep l).
Proof.
  unfold Array_join.
  induction l as [| x [| y rest] IH]; try reflexivity.
  change (map JStr (x :: y :: rest)) with (JStr x :: map JStr (y :: rest)).
  cbn [join_by map] in *. rewrite IH. reflexivity.
Qed.

Lemma append_empty (s : string) : s ++ EmptyString = s.
Proof. induction s as [| c s IH]; cbn; [reflexivity | now rewrite IH]. Qed.

(** ** The error mapping *)

(** C4.  Whenever the upstream call returns status 429, the answer has
    status 429 and the body [{ error: 'Rate limit exceeded. Please try
    again later.' }]. *)
Theorem rate_limit_passthrough env fetch req rq r :
  In (Fetch rq (Resolves r)) (snd (handler env fetch req)) ->
  upstream_status r = 429%N ->
  fst (handler env fetch req)
  = inr (mkResponse
           (Some (error_body "Rate limit exceeded. Please try again later."))
           429 json_headers).
Proof.
  intros Hcall Hstatus.
  pose proof (ok_429 r Hstatus) as Hok.
  destruct (call_inversion _ _ _ _ _ Hcall)
    as (joined & [Hmethod (parsed & ingredients & Hparsed & Hing & Hkey & Hjoin)]
        & -> & Hfetch).
  follow_path. reflexivity.
Qed.

(** ** What the handler writes can be read back *)

Lemma chars_app (a b : string) :
  list_ascii_of_string (a ++ b)
  = (list_ascii_of_string a ++ list_ascii_of_string b)%list.
Proof. induction a as [| c a IH]; cbn; [reflexivity | now rewrite IH]. Qed.

Lemma run_app st a b :
  run st (a ++ b)%list
  = match run st a with
    | Some st' => run st' b
    | None => None
    end.
Proof.
  revert st. induction a as [| c a IH]; intros st; cbn [app run];
    [reflexivity |].
  destruct (step st c); [apply IH | reflexivity].
Qed.

(** Inside a string, the escaped form of a character reads back as the
    character. *)
Lemma run_quoted_char fs p acc c rest :
  run (mkState fs p (InString (mkStringScan SPlain acc None)))
    (list_ascii_of_string (quote_char c) ++ rest)%list
  = run (mkState fs p (InString (mkStringScan SPlain (c :: acc) None))) rest.
Proof.
  destruct c as [[] [] [] [] [] [] [] []]; reflexivity.
Qed.

Lemma run_quoted_chars fs p acc s rest :
  run (mkState fs p (InString (mkStringScan SPlain acc None)))
    (list_ascii_of_string (quote_chars s) ++ rest)%list
  = run (mkState fs p
           (InString (mkStringScan SPlain
                        (rev (list_ascii_of_string s) ++ acc)%list None)))
      rest.
Proof.
  revert acc. induction s as [| c s IH]; intros acc; [reflexivity |].
  cbn [quote_chars]. rewrite chars_app, <- app_assoc, run_quoted_char, IH.
  cbn [list_ascii_of_string rev]. now rewrite <- app_assoc.
Qed.

Lemma rev_chars_back (s : string) :
  string_of_list_ascii (rev (rev (list_ascii_of_string s) ++ [])%list) = s.
Proof.
  rewrite app_nil_r, rev_involutive. apply string_of_list_ascii_of_string.
Qed.

(** A quoted string where a value is due. *)
Lemma run_string_value fs p s rest :
  p = Value \/ p = FirstElement ->
  run (mkState fs p Idle) (list_ascii_of_string (quote s) ++ rest)%list
  = match deliver (JStr s) fs with
    | Some st => run st rest
    | None => None
    end.
Proof.
  intros Hp. unfold quote.
  cbn [list_ascii_of_string app]. rewrite chars_app, <- app_assoc.
  assert (Hopen : step (mkState fs p Idle) dquote
                  = Some (mkState fs Value
                            (InString (mkStringScan SPlain [] None))))
    by (destruct Hp as [-> | ->]; reflexivity).
  cbn [run]. rewrite Hopen, run_quoted_chars.
  cbn [list_ascii_of_string app run].
  change (step _ dquote)
    with (deliver_string
            (string_of_list_ascii
               (rev (rev (list_ascii_of_string s) ++ [])%list))
            (mkState fs Value
               (InString (mkStringScan SPlain
                            (rev (list_ascii_of_string s) ++ [])%list None)))).
  rewrite rev_chars_back. reflexivity.
Qed.

(** A quoted string where a key is due. *)
Lemma run_string_key ms fs p s rest :
  p = FirstKey \/ p = Key ->
  run (mkState (InObject ms None :: fs) p Idle)
    (list_ascii_of_string (quote s) ++ rest)%list
  = run (mkState (InObject ms (Some s) :: fs) Colon Idle) rest.
Proof.
  intros Hp. unfold quote.
  cbn [list_ascii_of_string app]. rewrite chars_app, <- app_assoc.
  assert (Hopen : step (mkState (InObject ms None :: fs) p Idle) dquote
                  = Some (mkState (InObject ms None :: fs) p
                            (InString (mkStringScan SPlain [] None))))
    by (destruct Hp as [-> | ->]; reflexivity).
  cbn [run]. rewrite Hopen, run_quoted_chars.
  cbn [list_ascii_of_string app run].
  change (step _ dquote)
    with (deliver_string
            (string_of_list_ascii
               (rev (rev (list_ascii_of_string s) ++ [])%list))
            (mkState (InObject ms None :: fs) p
               (InString (mkStringScan SPlain
                            (rev (list_ascii_of_string s) ++ [])%list None)))).
  rewrite rev_chars_back. destruct Hp as [-> | ->]; reflexivity.
Qed.

Lemma value_induction (P : value -> Prop) :
  P JNull ->
  (forall b, P (JBool b)) ->
  (forall n, P (JNum n)) ->
  (forall s, P (JStr s)) ->
  (forall l, Forall P l -> P (JArr l)) ->
  (forall o, Forall (fun kv => P (snd kv)) o -> P (JObj o)) ->
  forall v, P v.
Proof.
  intros Hnull Hbool Hnum Hstr Harr Hobj.
  fix IH 1.
  intros [| b | n | s | l | o];
    [apply Hnull | apply Hbool | apply Hnum | apply Hstr | |].
  - apply Harr. induction l as [| x l IHl]; constructor; [apply IH | exact IHl].
  - apply Hobj. induction o as [| [k x] o IHo]; constructor;
      [apply IH | exact IHo].
Qed.

(** The elements of an array, from the first on, up to the closing bracket. *)
Lemma run_elements fs rest :
  forall l,
    Forall (fun v =>
              number_free v = true ->
              forall fs p rest,
                p = Value \/ p = FirstElement ->
                run (mkState fs p Idle)
                  (list_ascii_of_string (stringify v) ++ rest)%list
                = match deliver (rebuilt v) fs with
                  | Some st => run st rest
                  | None => None
                  end) l ->
    forallb number_free l = true ->
    l <> [] ->
    forall acc p,
      p = Value \/ p = FirstElement ->
      run (mkState (InArray acc :: fs) p Idle)
        (list_ascii_of_string (String.concat "," (map stringify l))
         ++ "]"%char :: rest)%list
      = match deliver (JArr (rev acc ++ map rebuilt l)) fs with
        | Some st => run st rest
        | None => None
        end.
Proof.
  induction l as [| x [| y ys] IH]; intros Hall Hfree Hne acc p Hp;
    [congruence | |].
  - inversion Hall as [| ? ? Hx _]; subst.
    cbn [forallb] in Hfree. apply andb_prop in Hfree as [Hfx _].
    cbn [map String.concat]. rewrite (Hx Hfx _ _ _ Hp).
    cbn [deliver run]. cbn [rev map]. reflexivity.
  - inversion Hall as [| ? ? Hx Hrest]; subst.
    cbn [forallb] in Hfree. apply andb_prop in Hfree as [Hfx Hfrest].
    change (String.concat "," (map stringify (x :: y :: ys)))
      with (stringify x ++ "," ++ String.concat "," (map stringify (y :: ys))).
    rewrite !chars_app, <- !app_assoc. rewrite (Hx Hfx _ _ _ Hp).
    cbn [deliver list_ascii_of_string app run].
    change (step (mkState (InArray (rebuilt x :: acc) :: fs) Next Idle) ","%char)
      with (Some (mkState (InArray (rebuilt x :: acc) :: fs) Value Idle)).
    cbv beta iota.
    rewrite (IH Hrest Hfrest ltac:(discriminate) (rebuilt x :: acc) Value
               (or_introl eq_refl)).
    cbn [rev map]. now rewrite <- app_assoc.
Qed.

(** The members of an object, from the first on, up to the closing brace. *)
Lemma run_members fs rest :
  forall o,
    Forall (fun kv =>
              number_free (snd kv) = true ->
              forall fs p rest,
                p = Value \/ p = FirstElement ->
                run (mkState fs p Idle)
                  (list_ascii_of_string (stringify (snd kv)) ++ rest)%list
                = match deliver (rebuilt (snd kv)) fs with
                  | Some st => run st rest
                  | None => None
                  end) o ->
    forallb (fun kv => number_free (snd kv)) o = true ->
    o <> [] ->
    forall ms p,
      p = FirstKey \/ p = Key ->
      run (mkState (InObject ms None :: fs) p Idle)
        (list_ascii_of_string
           (String.concat ","
              (map (fun kv => (quote (fst kv) ++ ":" ++ stringify (snd kv))%string)
                 o))
         ++ "}"%char :: rest)%list
      = match deliver
                (JObj (fold_left
                         (fun acc kv => set_member (fst kv) (rebuilt (snd kv)) acc)
                         o ms)) fs with
        | Some st => run st rest
        | None => None
        end.
Proof.
  induction o as [| [k x] [| kv o'] IH]; intros Hall Hfree Hne ms p Hp;
    [congruence | |].
  - inversion Hall as [| ? ? Hx _]; subst. cbn [snd fst] in *.
    cbn [forallb snd] in Hfree. apply andb_prop in Hfree as [Hfx _].
    cbn [map String.concat fst snd].
    rewrite !chars_app, <- !app_assoc, (run_string_key _ _ _ _ _ Hp).
    cbn [list_ascii_of_string app run].
    change (step (mkState (InObject ms (Some k) :: fs) Colon Idle) ":"%char)
      with (Some (mkState (InObject ms (Some k) :: fs) Value Idle)).
    cbv beta iota. rewrite (Hx Hfx _ _ _ (or_introl eq_refl)).
    cbn [deliver run fold_left fst snd]. reflexivity.
  - inversion Hall as [| ? ? Hx Hrest]; subst. cbn [snd fst] in *.
    cbn [forallb snd] in Hfree. apply andb_prop in Hfree as [Hfx Hfrest].
    change (String.concat ","
              (map (fun kv => quote (fst kv) ++ ":" ++ stringify (snd kv))
                 ((k, x) :: kv :: o')))
      with ((quote k ++ ":" ++ stringify x) ++ ","
            ++ String.concat ","
                 (map (fun kv => quote (fst kv) ++ ":" ++ stringify (snd kv))
                    (kv :: o'))).
    rewrite !chars_app, <- !app_assoc, (run_string_key _ _ _ _ _ Hp).
    cbn [list_ascii_of_string app run].
    change (step (mkState (InObject ms (Some k) :: fs) Colon Idle) ":"%char)
      with (Some (mkState (InObject ms (Some k) :: fs) Value Idle)).
    cbv beta iota. rewrite (Hx Hfx _ _ _ (or_introl eq_refl)).
    cbn [deliver run].
    change (step (mkState (InObject (set_member k (rebuilt x) ms) None :: fs)
                    Next Idle) ","%char)
      with (Some (mkState (InObject (set_member k (rebuilt x) ms) None :: fs)
                    Key Idle)).
    cbv beta iota.
    rewrite (IH Hrest Hfrest ltac:(discriminate) _ Key (or_intror eq_refl)).
    reflexivity.
Qed.

(** Where a value is due, the text of a value without numbers reads back
    as the value, rebuilt. *)
Lemma run_value (v : value) :
  number_free v = true ->
  forall fs p rest,
    p = Value \/ p = FirstElement ->
    run (mkState fs p Idle) (list_ascii_of_string (stringify v) ++ rest)%list
    = match deliver (rebuilt v) fs with
      | Some st => run st rest
      | None => None
      end.
Proof.
  induction v as [| b | n | s | l IH | o IH] using value_induction;
    intros Hfree fs p rest Hp.
  - destruct Hp as [-> | ->]; reflexivity.
  - destruct b; destruct Hp as [-> | ->]; reflexivity.
  - discriminate Hfree.
  - now apply run_string_value.
  - cbn [number_free] in Hfree. cbn [stringify rebuilt].
    rewrite !chars_app, <- !app_assoc. cbn [list_ascii_of_string app run].
    assert (Hopen : step (mkState fs p Idle) "["%char
                    = Some (mkState (InArray [] :: fs) FirstElement Idle))
      by (destruct Hp as [-> | ->]; reflexivity).
    rewrite Hopen.
    destruct l as [| x l'].
    + reflexivity.
    + now rewrite (run_elements fs rest _ IH Hfree ltac:(discriminate) []
                     FirstElement (or_intror eq_refl)).
  - cbn [number_free] in Hfree. cbn [stringify rebuilt].
    rewrite !chars_app, <- !app_assoc. cbn [list_ascii_of_string app run].
    assert (Hopen : step (mkState fs p Idle) "{"%char
                    = Some (mkState (InObject [] None :: fs) FirstKey Idle))
      by (destruct Hp as [-> | ->]; reflexivity).
    rewrite Hopen.
    destruct o as [| kv o'].
    + reflexivity.
    + now rewrite (run_members fs rest _ IH Hfree ltac:(discriminate) []
                     FirstKey (or_introl eq_refl)).
Qed.

Lemma parse_stringify (v : value) :
  number_free v = true -> parse (stringify v) = Some (rebuilt v).
Proof.
  intros Hfree. unfold parse.
  rewrite <- (app_nil_r (list_ascii_of_string (stringify v))).
  rewrite (run_value v Hfree [] Value [] (or_introl eq_refl)).
  reflexivity.
Qed.

(** ** The body of the upstream call

    What lines 55 to 62 hand to [fetch], as the text that is sent and as
    the value the receiver reads out of it. *)

Lemma append_assoc (a b c : string) : (a ++ b) ++ c = a ++ b ++ c.
Proof. induction a as [| x a IH]; cbn; [reflexivity | now rewrite IH]. Qed.

Lemma chat_request_reads_back (content : string) :
  parse (stringify (chat_request content))
  = Some
      (JObj
         [("model", JStr "google/gemini-2.5-flash");
          ("messages",
           JArr
             [JObj [("role", JStr "system"); ("content", JStr systemPrompt)];
              JObj [("role", JStr "user"); ("content", JStr content)]]);
          ("response_format", JObj [("type", JStr "json_object")])]).
Proof. now rewrite parse_stringify. Qed.

Lemma chat_request_text (content : string) :
  stringify (chat_request content)
  = template "{'model':'google/gemini-2.5-flash','messages':[{'role':'system','content':"
    ++ quote systemPrompt
    ++ template "},{'role':'user','content':"
    ++ quote content
    ++ template "}],'response_format':{'type':'json_object'}}".
Proof.
  unfold chat_request. cbn [stringify map String.concat fst snd].
  rewrite !append_assoc.
  generalize (quote content) as q. intros q.
  vm_compute. reflexivity.
Qed.

(** C5.  Whenever the upstream call returns status 402, the answer has
    status 402 and the body [{ error: 'Payment required. Please add
    credits to your workspace.' }]. *)
Theorem payment_required_passthrough env fetch req rq r :
  In (Fetch rq (Resolves r)) (snd (handler env fetch req)) ->
  upstream_status r = 402%N ->
  fst (handler env fetch req)
  = inr (mkResponse
           (Some (error_body
                    "Payment required. Please add credits to your workspace."))
           402 json_headers).
Proof.
  intros Hcall Hstatus.
  pose proof (ok_402 r Hstatus) as Hok.
  destruct (call_inversion _ _ _ _ _ Hcall)
    as (joined & [Hmethod (parsed & ingredients & Hparsed & Hing & Hkey & Hjoin)]
        & -> & Hfetch).
  follow_path. reflexivity.
Qed.

(** C1, as the code has it.  For every upstream response whose status is
    not a success and is neither 429 nor 402, the answer has status 500
    and the body [{ error: 'AI gateway error: <status>' }]: the message
    spells out the upstream status.  The upstream body is logged with
    [console.error] and has no part in the answer: another body under the
    same status gets the same answer. *)
Theorem generic_upstream_failure env fetch req rq r :
  In (Fetch rq (Resolves r)) (snd (handler env fetch req)) ->
  ok r = false ->
  upstream_status r <> 429%N ->
  upstream_status r <> 402%N ->
  fst (handler env fetch req)
  = inr (mkResponse
           (Some (error_body
                    ("AI gateway error: " ++ N_to_string (upstream_status r))))
           500 json_headers)
  /\ In (ConsoleError [Text "AI gateway error:"; Num (upstream_status r);
                       Text (upstream_text r)])
        (snd (handler env fetch req))
  /\ forall text',
       fst (handler env
              (fun _ => Resolves (mkUpstream (upstream_status r) text')) req)
       = fst (handler env fetch req).
Proof.
  intros Hcall Hok H429 H402.
  apply N.eqb_neq in H429. apply N.eqb_neq in H402.
  destruct (call_inversion _ _ _ _ _ Hcall)
    as (joined & [Hmethod (parsed & ingredients & Hparsed & Hing & Hkey & Hjoin)]
        & -> & Hfetch).
  assert (Hanswer :
            fst (handler env fetch req)
            = inr (mkResponse
                     (Some (error_body
                              ("AI gateway error: "
                               ++ N_to_string (upstream_status r))))
                     500 json_headers)).
  { follow_path. reflexivity. }
  split; [exact Hanswer |]. split.
  - follow_path. cbn [In]. auto.
  - intros text'. rewrite Hanswer. clear Hfetch Hcall Hanswer.
    assert (Hok' : ok (mkUpstream (upstream_status r) text') = false) by exact Hok.
    follow_path. cbn [upstream_status]. follow_path. reflexivity.
Qed.

(** ** The success path *)

(** C2.  When the upstream call succeeds and [JSON.parse] throws on the
    message content, the answer is the one of the [catch] block: status
    500 with the thrown error's message, and so never status 200. *)
Theorem malformed_content_is_500 env fetch req rq r data content e :
  In (Fetch rq (Resolves r)) (snd (handler env fetch req)) ->
  ok r = true ->
  response_json r = inr data ->
  message_content data = inr content ->
  JSON_parse content = inl e ->
  fst (handler env fetch req)
  = inr (mkResponse (Some (error_body (message_or e "An error occurred")))
           500 json_headers)
  /\ In (ConsoleError [Text "Error in generate-recipe function:"; Err e])
        (snd (handler env fetch req))
  /\ forall resp, fst (handler env fetch req) = inr resp -> status resp <> 200%N.
Proof.
  intros Hcall Hok Hdata Hcontent Hparse.
  destruct (call_inversion _ _ _ _ _ Hcall)
    as (joined & [Hmethod (parsed & ingredients & Hparsed & Hing & Hkey & Hjoin)]
        & -> & Hfetch).
  assert (Hanswer :
            fst (handler env fetch req)
            = inr (mkResponse
                     (Some (error_body (message_or e "An error occurred")))
                     500 json_headers)).
  { follow_path. reflexivity. }
  split; [exact Hanswer |]. split.
  - follow_path. cbn [In]. auto.
  - intros resp Hresp. rewrite Hanswer in Hresp.
    injection Hresp as <-. cbn [status]. discriminate.
Qed.

(** C3.  When the upstream call succeeds and the message content parses
    as JSON, the answer has status 200 and the body [{ recipe: <value> }],
    whatever value the content parsed to: nothing looks at its shape. *)
Theorem success_envelope env fetch req rq r data content recipe :
  In (Fetch rq (Resolves r)) (snd (handler env fetch req)) ->
  ok r = true ->
  response_json r = inr data ->
  message_content data = inr content ->
  JSON_parse content = inr recipe ->
  fst (handler env fetch req)
  = inr (mkResponse (Some (stringify (JObj [("recipe", recipe)])))
           200 json_headers).
Proof.
  intros Hcall Hok Hdata Hcontent Hparse.
  destruct (call_inversion _ _ _ _ _ Hcall)
    as (joined & [Hmethod (parsed & ingredients & Hparsed & Hing & Hkey & Hjoin)]
        & -> & Hfetch).
  follow_path. reflexivity.
Qed.

(** ** Configuration *)

(** C6.  With no LOVABLE_API_KEY in the configuration, a request other
    than the OPTIONS pre-flight is answered with status 500 and an error
    message (the configuration message itself once the body has been read)
    and no upstream call is made.  The handler returns this answer rather
    than throwing, and the process answers the invocations before and
    after it as it would without it. *)
Theorem missing_credential env fetch req :
  Deno_env_get env "LOVABLE_API_KEY" = None ->
  method req <> "OPTIONS" ->
  (exists message,
      fst (handler env fetch req)
      = inr (mkResponse (Some (error_body message)) 500 json_headers)
      /\ forall parsed ingredients,
           req_json req = inr parsed ->
           destructure parsed "ingredients" = inr ingredients ->
           message = "LOVABLE_API_KEY is not configured")
  /\ (forall rq out, ~ In (Fetch rq out) (snd (handler env fetch req)))
  /\ (forall before after,
        serve (before ++ mkInvocation env fetch req :: after)
        = (serve before ++ handler env fetch req :: serve after)%list).
Proof.
  intros Hkey Hmethod.
  apply String.eqb_neq in Hmethod.
  split; [| split].
  - destruct (req_json req) as [e | parsed] eqn:Hparsed.
    { eexists. split; [follow_path; reflexivity |]. intros ? ? [=]. }
    destruct (destructure parsed "ingredients") as [e | ingredients] eqn:Hing.
    { eexists. split; [follow_path; reflexivity |].
      intros ? ? [= <-] Hing'. congruence. }
    eexists. split; [follow_path; cbn [falsy]; follow_path; reflexivity |].
    reflexivity.
  - intros rq out Hcall.
    destruct (call_inversion _ _ _ _ _ Hcall)
      as (joined & [_ (parsed & ingredients & _ & _ & Hfalsy & _)] & _).
    rewrite Hkey in Hfalsy. discriminate.
  - intros before after. unfold serve. rewrite map_app. reflexivity.
Qed.

(** ** Cross-origin headers *)

(** C7.  Every invocation ends with a response, its status is 200, 429,
    402 or 500, and it carries both CORS headers: any origin, and the fixed
    list of request headers.  An OPTIONS request is answered at once with
    status 200, no body and exactly the CORS headers. *)
Theorem cors_on_every_response env fetch req :
  (exists resp,
      fst (handler env fetch req) = inr resp
      /\ In ("Access-Control-Allow-Origin", "*") (response_headers resp)
      /\ In ("Access-Control-Allow-Headers",
             "authorization, x-client-info, apikey, content-type")
            (response_headers resp)
      /\ (status resp = 200%N \/ status resp = 429%N \/ status resp = 402%N
          \/ status resp = 500%N))
  /\ handler env fetch (mkRequest "OPTIONS" (payload req))
     = (inr (mkResponse None 200 corsHeaders), []).
Proof.
  split; [| reflexivity].
  destruct (answer_cases env fetch req) as (resp & Hresp & Hcors & Hstatus).
  exists resp. split; [exact Hresp |].
  split; [apply Hcors; cbn [corsHeaders In]; auto |].
  split; [apply Hcors; cbn [corsHeaders In]; auto |].
  destruct Hstatus as [H | [H | (rq & r & _ & -> & [-> | ->])]]; auto.
Qed.

(** ** The user turn *)

(** C8.  When the request's ingredients are the strings [l], the user
    turn of the body sent upstream is the fixed lead-in followed by the
    strings joined with a comma and a space: the body reads as the chat
    object whose second message has the role user and that content, and as
    text it is the fixed frame around the system prompt and that content,
    each as a JSON string.  The joined list is a substring of the user
    turn, and for chicken and rice the text 'chicken, rice' stands in the
    user turn and in the body as sent. *)
Theorem user_prompt_lists_ingredients env fetch req parsed l rq out :
  req_json req = inr parsed ->
  destructure parsed "ingredients" = inr (Some (JArr (map JStr l))) ->
  In (Fetch rq out) (snd (handler env fetch req)) ->
  let content :=
    "Create a recipe using these ingredients: " ++ String.concat ", " l in
  parse (fetch_body rq)
  = Some
      (JObj
         [("model", JStr "google/gemini-2.5-flash");
          ("messages",
           JArr
             [JObj [("role", JStr "system"); ("content", JStr systemPrompt)];
              JObj [("role", JStr "user"); ("content", JStr content)]]);
          ("response_format", JObj [("type", JStr "json_object")])])
  /\ fetch_body rq
     = template "{'model':'google/gemini-2.5-flash','messages':[{'role':'system','content':"
       ++ quote systemPrompt
       ++ template "},{'role':'user','content':"
       ++ quote content
       ++ template "}],'response_format':{'type':'json_object'}}"
  /\ Substring (String.concat ", " l) content
  /\ (l = ["chicken"; "rice"] ->
      Substring "chicken, rice" content
      /\ Substring "chicken, rice" (fetch_body rq)).
Proof.
  intros Hparsed Hingredients Hcall content.
  destruct (call_inversion _ _ _ _ _ Hcall)
    as (joined & [_ (parsed' & ingredients & Hparsed' & Hing & _ & Hjoin)]
        & -> & _).
  rewrite Hparsed in Hparsed'. injection Hparsed' as <-.
  rewrite Hingredients in Hing. injection Hing as <-.
  cbn [call_join] in Hjoin. rewrite Array_join_strings in Hjoin.
  injection Hjoin as <-. fold content.
  cbn [upstream_request fetch_body].
  split; [apply chat_request_reads_back |].
  split; [apply chat_request_text |].
  assert (Hsub : Substring (String.concat ", " l) content).
  { exists "Create a recipe using these ingredients: ", EmptyString.
    now rewrite append_empty. }
  split; [exact Hsub |].
  intros Hl. split; [now rewrite Hl in Hsub |].
  subst content. rewrite Hl, chat_request_text.
  exists (template "{'model':'google/gemini-2.5-flash','messages':[{'role':'system','content':"
          ++ quote systemPrompt
          ++ template "},{'role':'user','content':'Create a recipe using these ingredients: "),
         (template "'}],'response_format':{'type':'json_object'}}").
  vm_compute. reflexivity.
Qed.

(** ** No validation of the ingredient list *)

(** C9.  A request whose body parses as JSON with an empty ingredients
    array is not turned away: with the credential configured the upstream
    call is made, its user turn being the lead-in with nothing after it,
    and the only 4xx answers are the upstream's own 429 and 402. *)
Theorem empty_ingredients_reach_upstream env fetch req parsed :
  method req <> "OPTIONS" ->
  req_json req = inr parsed ->
  destructure parsed "ingredients" = inr (Some (JArr [])) ->
  falsy (Deno_env_get env "LOVABLE_API_KEY") = false ->
  exists rq resp,
    In (Fetch rq (fetch rq)) (snd (handler env fetch req))
    /\ fetch_body rq
       = stringify (chat_request "Create a recipe using these ingredients: ")
    /\ fst (handler env fetch req) = inr resp
    /\ (status resp = 200%N \/ status resp = 500%N
        \/ exists r,
             fetch rq = Resolves r /\ status resp = upstream_status r
             /\ (upstream_status r = 429%N \/ upstream_status r = 402%N)).
Proof.
  intros Hmethod Hparsed Hingredients Hkey.
  apply String.eqb_neq in Hmethod.
  assert (Hreach : reaches_upstream env req EmptyString).
  { split; [exact Hmethod |]. exists parsed, (Some (JArr [])). auto. }
  pose proof (call_made env fetch req EmptyString Hreach) as Hcall.
  cbv zeta in Hcall.
  destruct (answer_cases env fetch req) as (resp & Hresp & _ & Hstatus).
  eexists. exists resp.
  split; [exact Hcall |]. split; [reflexivity |]. split; [exact Hresp |].
  destruct Hstatus as [H | [H | (rq & r & Hmade & Hsame & Hwhich)]]; auto.
  right. right. exists r.
  destruct (call_inversion _ _ _ _ _ Hmade) as (joined & Hreach' & -> & Hfetch).
  destruct Hreach as [_ (p1 & i1 & Hp1 & Hi1 & _ & Hj1)].
  destruct Hreach' as [_ (p2 & i2 & Hp2 & Hi2 & _ & Hj2)].
  assert (joined = EmptyString) as -> by congruence.
  auto.
Qed.

(** ** The theorems at sample invocations *)

Import Samples.

Lemma rate_limit_passthrough_witness :
  fst (handler configured (replies 429 "slow down") chicken_rice)
  = inr (mkResponse
           (Some (template "{'error':'Rate limit exceeded. Please try again later.'}"))
           429 json_headers).
Proof.
  refine (rate_limit_passthrough configured (replies 429 "slow down")
            chicken_rice _ (mkUpstream 429 "slow down") _ _).
  - lazy. right. left. reflexivity.
  - reflexivity.
Defined.

Lemma payment_required_passthrough_witness :
  fst (handler configured (replies 402 "no credits") chicken_rice)
  = inr (mkResponse
           (Some (template
              "{'error':'Payment required. Please add credits to your workspace.'}"))
           402 json_headers).
Proof.
  refine (payment_required_passthrough configured (replies 402 "no credits")
            chicken_rice _ (mkUpstream 402 "no credits") _ _).
  - lazy. right. left. reflexivity.
  - reflexivity.
Defined.

Lemma generic_upstream_failure_witness :
  fst (handler configured (replies 503 "overloaded") chicken_rice)
  = inr (mkResponse (Some (template "{'error':'AI gateway error: 503'}"))
           500 json_headers)
  /\ In (ConsoleError [Text "AI gateway error:"; Num 503; Text "overloaded"])
        (snd (handler configured (replies 503 "overloaded") chicken_rice))
  /\ forall text',
       fst (handler configured (replies 503 text') chicken_rice)
       = fst (handler configured (replies 503 "overloaded") chicken_rice).
Proof.
  refine (generic_upstream_failure configured (replies 503 "overloaded")
            chicken_rice _ (mkUpstream 503 "overloaded") _ _ _ _).
  - lazy. right. left. reflexivity.
  - reflexivity.
  - discriminate.
  - discriminate.
Defined.

(** C1 as stated fails.  Upstream statuses 503 and 500 are both generic
    failures, yet the answers differ: each body spells out the status it
    came from. *)
Lemma generic_failure_message_carries_status :
  (ok (mkUpstream 503 "overloaded") = false
   /\ ok (mkUpstream 500 "overloaded") = false)
  /\ fst (handler configured (replies 503 "overloaded") chicken_rice)
     = inr (mkResponse (Some (template "{'error':'AI gateway error: 503'}"))
              500 json_headers)
  /\ fst (handler configured (replies 500 "overloaded") chicken_rice)
     = inr (mkResponse (Some (template "{'error':'AI gateway error: 500'}"))
              500 json_headers)
  /\ Substring "503" (template "{'error':'AI gateway error: 503'}")
  /\ fst (handler configured (replies 500 "overloaded") chicken_rice)
     <> fst (handler configured (replies 503 "overloaded") chicken_rice).
Proof.
  split; [split; reflexivity |].
  split; [vm_compute; reflexivity |].
  split; [vm_compute; reflexivity |].
  split.
  - exists (template "{'error':'AI gateway error: "), (template "'}").
    vm_compute. reflexivity.
  - vm_compute. discriminate.
Qed.

Lemma malformed_content_is_500_witness :
  let reply := completion_with (template "'Sorry, I cannot help with that.'") in
  fst (handler configured (replies 200 reply) chicken_rice)
  = inr (mkResponse (Some (template "{'error':'Unexpected token in JSON'}"))
           500 json_headers)
  /\ In (ConsoleError [Text "Error in generate-recipe function:";
                       Err (SyntaxError "Unexpected token in JSON")])
        (snd (handler configured (replies 200 reply) chicken_rice))
  /\ forall resp,
       fst (handler configured (replies 200 reply) chicken_rice) = inr resp ->
       status resp <> 200%N.
Proof.
  intros reply.
  refine (malformed_content_is_500 configured (replies 200 reply) chicken_rice
            _ (mkUpstream 200 reply) _
            (Some (JStr "Sorry, I cannot help with that."))
            (SyntaxError "Unexpected token in JSON") _ _ _ _ _).
  - lazy. right. left. reflexivity.
  - reflexivity.
  - vm_compute. reflexivity.
  - vm_compute. reflexivity.
  - vm_compute. reflexivity.
Defined.

(** A content that parses but is no recipe goes through all the same. *)
Lemma success_envelope_witness :
  let reply := completion_with (template "'{\'dish\':[1,2]}'") in
  fst (handler configured (replies 200 reply) chicken_rice)
  = inr (mkResponse (Some (template "{'recipe':{'dish':[1,2]}}")) 200 json_headers).
Proof.
  intros reply.
  refine (success_envelope configured (replies 200 reply) chicken_rice
            _ (mkUpstream 200 reply) _
            (Some (JStr (template "{'dish':[1,2]}")))
            (JObj [("dish", JArr [JNum (mkNumber false [1%N] 1);
                                  JNum (mkNumber false [2%N] 1)])])
            _ _ _ _ _).
  - lazy. right. left. reflexivity.
  - reflexivity.
  - vm_compute. reflexivity.
  - vm_compute. reflexivity.
  - vm_compute. reflexivity.
Defined.

Lemma missing_credential_witness :
  fst (handler unconfigured (replies 200 "unused") chicken_rice)
  = inr (mkResponse (Some (template "{'error':'LOVABLE_API_KEY is not configured'}"))
           500 json_headers)
  /\ (forall rq out,
        ~ In (Fetch rq out)
             (snd (handler unconfigured (replies 200 "unused") chicken_rice))).
Proof.
  destruct (missing_credential unconfigured (replies 200 "unused") chicken_rice)
    as [[message [Hresp Hmessage]] [Hnone _]].
  - reflexivity.
  - discriminate.
  - split; [| exact Hnone].
    rewrite Hresp. rewrite (Hmessage _ _ eq_refl eq_refl). reflexivity.
Defined.

Lemma user_prompt_lists_ingredients_witness :
  exists rq,
    In (Fetch rq (Resolves (mkUpstream 429 "slow down")))
       (snd (handler configured (replies 429 "slow down") chicken_rice))
    /\ parse (fetch_body rq)
       = Some
           (JObj
              [("model", JStr "google/gemini-2.5-flash");
               ("messages",
                JArr
                  [JObj [("role", JStr "system"); ("content", JStr systemPrompt)];
                   JObj [("role", JStr "user");
                         ("content",
                          JStr "Create a recipe using these ingredients: chicken, rice")]]);
               ("response_format", JObj [("type", JStr "json_object")])])
    /\ Substring "chicken, rice" (fetch_body rq)
    /\ fetch_body rq = chicken_rice_body.
Proof.
  eexists.
  match goal with
  | |- ?A /\ _ => assert (Hcall : A) by (lazy; right; left; reflexivity)
  end.
  destruct (user_prompt_lists_ingredients configured (replies 429 "slow down")
              chicken_rice _ ["chicken"; "rice"] _ _ eq_refl eq_refl Hcall)
    as [Hread [_ [_ Hsub]]].
  split; [exact Hcall |]. split; [exact Hread |].
  split; [exact (proj2 (Hsub eq_refl)) | vm_compute; reflexivity].
Defined.

Lemma empty_ingredients_reach_upstream_witness :
  let fetch := replies 200 (completion_with (template "'{}'")) in
  (exists rq resp,
      In (Fetch rq (fetch rq)) (snd (handler configured fetch no_ingredients))
      /\ fetch_body rq
         = stringify (chat_request "Create a recipe using these ingredients: ")
      /\ fst (handler configured fetch no_ingredients) = inr resp
      /\ (status resp = 200%N \/ status resp = 500%N
          \/ exists r,
               fetch rq = Resolves r /\ status resp = upstream_status r
               /\ (upstream_status r = 429%N \/ upstream_status r = 402%N)))
  /\ fst (handler configured fetch no_ingredients)
     = inr (mkResponse (Some (template "{'recipe':{}}")) 200 json_headers).
Proof.
  intros fetch. split; [| vm_compute; reflexivity].
  refine (empty_ingredients_reach_upstream configured fetch no_ingredients
            _ _ _ _ _).
  - discriminate.
  - vm_compute. reflexivity.
  - reflexivity.
  - reflexivity.
Defined.

(* ================================================================== *)
(** * Properties of the pages *)
(* ================================================================== *)

Import Store Pages.

Lemma place_permutation (r : row) (l : list row) :
  Permutation (r :: l) (place r l).
Proof.
  induction l as [| x rest IH]; cbn [place].
  - apply Permutation_refl.
  - destruct (created_at x <=? created_at r)%N.
    + apply Permutation_refl.
    + eapply perm_trans; [apply perm_swap |]. now apply perm_skip.
Qed.

(** Ordering the rows neither drops nor repeats one. *)
Lemma newest_first_permutation (l : list row) : Permutation l (newest_first l).
Proof.
  induction l as [| r rest IH]; cbn [newest_first fold_right].
  - apply perm_nil.
  - eapply perm_trans; [| apply place_permutation]. now apply perm_skip.
Qed.

Lemma newest_first_In (x : row) (l : list row) :
  In x (newest_first l) <-> In x l.
Proof.
  split; apply Permutation_in;
    [apply Permutation_sym |]; apply newest_first_permutation.
Qed.

(** The two filters split any list of rows. *)
Lemma tabs_partition (page : SavedRecipesPage) (x : row) :
  In x (recipes page) ->
  (In x (savedRecipes page) /\ ~ In x (favoriteRecipes page))
  \/ (In x (favoriteRecipes page) /\ ~ In x (savedRecipes page)).
Proof.
  intros Hin. unfold savedRecipes, favoriteRecipes.
  rewrite !filter_In.
  destruct (is_favorite x); cbn [negb]; [right | left];
    (split; [auto | intros [_ Hno]; discriminate Hno]).
Qed.

Lemma tabs_count (page : SavedRecipesPage) :
  List.length (savedRecipes page) + List.length (favoriteRecipes page)
  = List.length (recipes page).
Proof.
  unfold savedRecipes, favoriteRecipes.
  induction (recipes page) as [| x rest IH]; cbn [filter]; [reflexivity |].
  destruct (is_favorite x); cbn [negb length]; lia.
Qed.

(** Whatever the page and the world, an action on the Recipe page leaves
    every row of the table as it was and adds at most one. *)
Lemma save_only_appends (st : RecipePage) (w : world) :
  exists added,
    rows (saved_recipes (world_after (handleSaveRecipe st w)))
    = (rows (saved_recipes w) ++ added)%list
    /\ Forall (fun x => is_favorite x = false) added.
Proof.
  unfold handleSaveRecipe, world_after, getUser, insert.
  destruct (recipe st) as [r |]; cbn [fst snd];
    [| exists []; now rewrite app_nil_r].
  destruct (session w) as [u |]; cbn [fst snd];
    [| exists []; now rewrite app_nil_r].
  destruct (outage w); cbn [fst snd]; [exists []; now rewrite app_nil_r |].
  rewrite N.eqb_refl. cbn [fst snd saved_recipes rows].
  eexists. split; [reflexivity |]. repeat constructor.
Qed.

Lemma favorite_only_appends (st : RecipePage) (w : world) :
  exists added,
    rows (saved_recipes (world_after (handleFavoriteRecipe st w)))
    = (rows (saved_recipes w) ++ added)%list
    /\ Forall (fun x => is_favorite x = true) added.
Proof.
  unfold handleFavoriteRecipe, world_after, getUser, insert.
  destruct (recipe st) as [r |]; cbn [fst snd];
    [| exists []; now rewrite app_nil_r].
  destruct (session w) as [u |]; cbn [fst snd];
    [| exists []; now rewrite app_nil_r].
  destruct (outage w); cbn [fst snd]; [exists []; now rewrite app_nil_r |].
  rewrite N.eqb_refl. cbn [fst snd saved_recipes rows].
  eexists. split; [reflexivity |]. repeat constructor.
Qed.

(** What a successful insert leaves behind. *)
Lemma save_inserts (st : RecipePage) (w : world) (r : Recipe) (u : uuid) :
  recipe st = Some r ->
  session w = Some u ->
  outage w = None ->
  let t := saved_recipes w in
  handleSaveRecipe st w
  = (mkRecipePage (Some r) false (isFavoriting st) true (isFavorited st),
     mkWorld (Some u)
       (mkTable
          (rows t ++ [mkRow (next_uuid t) u (name r) r false (now t) (now t)])
          (next_uuid t + 1)%N (now t))
       None,
     [mkToast "Recipe saved!" "You can find it in your saved recipes." false]).
Proof.
  intros Hrecipe Hsession Houtage t.
  unfold handleSaveRecipe, getUser, insert.
  rewrite Hrecipe, Hsession, Houtage, N.eqb_refl. reflexivity.
Qed.

Lemma favorite_inserts (st : RecipePage) (w : world) (r : Recipe) (u : uuid) :
  recipe st = Some r ->
  session w = Some u ->
  outage w = None ->
  let t := saved_recipes w in
  handleFavoriteRecipe st w
  = (mkRecipePage (Some r) (isSaving st) false (isSaved st) true,
     mkWorld (Some u)
       (mkTable
          (rows t ++ [mkRow (next_uuid t) u (name r) r true (now t) (now t)])
          (next_uuid t + 1)%N (now t))
       None,
     [mkToast "Added to favorites!" "Recipe saved to your favorites." false]).
Proof.
  intros Hrecipe Hsession Houtage t.
  unfold handleFavoriteRecipe, getUser, insert.
  rewrite Hrecipe, Hsession, Houtage, N.eqb_refl. reflexivity.
Qed.

(** The listing of a signed-in user shows every row of theirs. *)
Lemma own_rows_listed (page : SavedRecipesPage) (u : uuid) (t : table) (x : row) :
  In x (rows t) ->
  user_id x = u ->
  In x (recipes (fst (fst (fetchSavedRecipes page (mkWorld (Some u) t None))))).
Proof.
  intros Hin Huser.
  unfold fetchSavedRecipes, getUser, select_by_user.
  cbn [session outage saved_recipes fst snd recipes].
  apply newest_first_In. rewrite !filter_In.
  rewrite Huser, N.eqb_refl. auto.
Qed.

(** C10.  For a signed-in user and a store that answers, Save appends a
    new row with [is_favorite] false and Favorite appends a new row with
    [is_favorite] true, every older row left as it was.  After both, in
    either order, the table has two new rows with different ids, and in
    the listing fetched afterwards the saved row is in the Saved Recipes
    tab only and the favorite row in the Favorites tab only.  In any
    listing every row is in exactly one of the two tabs, and whatever the
    page and the world, Favorite changes no existing row. *)
Theorem saved_and_favorite_are_separate_rows
    (st : RecipePage) (w : world) (r : Recipe) (u : uuid) (save_first : bool) :
  recipe st = Some r ->
  session w = Some u ->
  outage w = None ->
  let t := saved_recipes w in
  let new_row (n : uuid) (favorite : bool) :=
    mkRow n u (name r) r favorite (now t) (now t) in
  let first := if save_first then handleSaveRecipe else handleFavoriteRecipe in
  let second := if save_first then handleFavoriteRecipe else handleSaveRecipe in
  let after_first := first st w in
  let after_both := second (page_after after_first) (world_after after_first) in
  let saved_row :=
    new_row (if save_first then next_uuid t else next_uuid t + 1)%N false in
  let favorite_row :=
    new_row (if save_first then next_uuid t + 1 else next_uuid t)%N true in
  let page :=
    fst (fst (fetchSavedRecipes (mkSavedRecipesPage [] true "all")
                (world_after after_both))) in
  (rows (saved_recipes (world_after (handleSaveRecipe st w)))
   = (rows t ++ [new_row (next_uuid t) false])%list
   /\ rows (saved_recipes (world_after (handleFavoriteRecipe st w)))
      = (rows t ++ [new_row (next_uuid t) true])%list)
  /\ (rows (saved_recipes (world_after after_both))
      = (rows t ++ (if save_first then [saved_row; favorite_row]
                    else [favorite_row; saved_row]))%list
      /\ id saved_row <> id favorite_row
      /\ recipe_data saved_row = r /\ recipe_data favorite_row = r)
  /\ (In saved_row (tab_content page SavedTab)
      /\ ~ In saved_row (tab_content page FavoritesTab)
      /\ In favorite_row (tab_content page FavoritesTab)
      /\ ~ In favorite_row (tab_content page SavedTab))
  /\ (forall listing x,
        In x (recipes listing) ->
        (In x (tab_content listing SavedTab)
         /\ ~ In x (tab_content listing FavoritesTab))
        \/ (In x (tab_content listing FavoritesTab)
            /\ ~ In x (tab_content listing SavedTab)))
  /\ (forall st' w',
        exists added,
          rows (saved_recipes (world_after (handleFavoriteRecipe st' w')))
          = (rows (saved_recipes w') ++ added)%list
          /\ Forall (fun x => is_favorite x = true) added).
Proof.
  intros Hrecipe Hsession Houtage t new_row first second after_first after_both
    saved_row favorite_row page.
  pose proof (save_inserts st w r u Hrecipe Hsession Houtage) as Hsave.
  pose proof (favorite_inserts st w r u Hrecipe Hsession Houtage) as Hfavorite.
  cbv zeta in Hsave, Hfavorite. fold t in Hsave, Hfavorite.
  assert (Hboth :
            world_after after_both
            = mkWorld (Some u)
                (mkTable
                   (rows t ++ (if save_first then [saved_row; favorite_row]
                               else [favorite_row; saved_row]))
                   (next_uuid t + 1 + 1)%N (now t))
                None).
  { subst after_both after_first first second saved_row favorite_row.
    destruct save_first.
    - rewrite Hsave.
      unfold page_after, world_after. cbn [fst snd].
      rewrite favorite_inserts with (r := r) (u := u) by reflexivity.
      cbn [fst snd saved_recipes rows next_uuid now].
      rewrite <- app_assoc. reflexivity.
    - rewrite Hfavorite.
      unfold page_after, world_after. cbn [fst snd].
      rewrite save_inserts with (r := r) (u := u) by reflexivity.
      cbn [fst snd saved_recipes rows next_uuid now].
      rewrite <- app_assoc. reflexivity. }
  assert (Hlisted : forall x, In x [saved_row; favorite_row] -> In x (recipes page)).
  { intros x Hx. subst page. rewrite Hboth.
    apply own_rows_listed; cbn [rows].
    - apply in_or_app. right.
      destruct save_first; cbn [In] in *; tauto.
    - destruct Hx as [<- | [<- | []]]; reflexivity. }
  split; [| split; [| split; [| split]]].
  - rewrite Hsave, Hfavorite. split; reflexivity.
  - split; [rewrite Hboth; reflexivity |].
    split; [| split; reflexivity].
    subst saved_row favorite_row new_row. cbn [id]. unfold uuid in *.
    destruct save_first; lia.
  - unfold tab_content, savedRecipes, favoriteRecipes. rewrite !filter_In.
    repeat split.
    + apply Hlisted. cbn [In]. auto.
    + intros [_ Hno]. discriminate Hno.
    + apply Hlisted. cbn [In]. auto.
    + intros [_ Hno]. discriminate Hno.
  - intros listing x. apply tabs_partition.
  - intros st' w'. apply favorite_only_appends.
Qed.

Lemma saved_and_favorite_are_separate_rows_witness :
  let saved := handleSaveRecipe Samples.showing_pilaf Samples.signed_in in
  let favorited := handleFavoriteRecipe (page_after saved) (world_after saved) in
  let page :=
    fst (fst (fetchSavedRecipes (mkSavedRecipesPage [] true "all")
                (world_after favorited))) in
  (map id (rows (saved_recipes (world_after favorited))) = [0%N; 1%N; 2%N]
   /\ map id (tab_content page SavedTab) = [1%N]
   /\ map id (tab_content page FavoritesTab) = [2%N]
   /\ tab_label page SavedTab = "Saved Recipes (1)"
   /\ tab_label page FavoritesTab = "Favorites (1)")
  /\ In (mkRow 1%N 7%N "Chicken pilaf" Samples.pilaf false 20%N 20%N)
        (tab_content page SavedTab)
  /\ ~ In (mkRow 1%N 7%N "Chicken pilaf" Samples.pilaf false 20%N 20%N)
          (tab_content page FavoritesTab)
  /\ In (mkRow 2%N 7%N "Chicken pilaf" Samples.pilaf true 20%N 20%N)
        (tab_content page FavoritesTab)
  /\ ~ In (mkRow 2%N 7%N "Chicken pilaf" Samples.pilaf true 20%N 20%N)
          (tab_content page SavedTab).
Proof.
  intros saved favorited page.
  split; [repeat split; reflexivity |].
  exact (proj1 (proj2 (proj2
           (saved_and_favorite_are_separate_rows Samples.showing_pilaf
              Samples.signed_in Samples.pilaf 7%N true
              eq_refl eq_refl eq_refl)))).
Defined.

(* ================================================================== *)
(** * More properties of the handler *)
(* ================================================================== *)

Import JSON JS Http Proxy.

(** X1.  When [fetch] itself fails (the promise rejects with [e]), the
    answer is the one of the [catch] block, status 500 with the message of
    [e] or the fallback text, and the failure is logged. *)
Theorem network_failure_is_500 env fetch req rq e :
  In (Fetch rq (Rejects e)) (snd (handler env fetch req)) ->
  fst (handler env fetch req) = inr (caught e)
  /\ In (ConsoleError [Text "Error in generate-recipe function:"; Err e])
        (snd (handler env fetch req)).
Proof.
  intros Hcall.
  destruct (call_inversion _ _ _ _ _ Hcall)
    as (joined & [Hmethod (parsed & ingredients & Hparsed & Hing & Hkey & Hjoin)]
        & -> & Hfetch).
  split; follow_path; [reflexivity | cbn [In]; auto].
Qed.

(** X2.  A request other than OPTIONS whose body cannot be turned into the
    joined ingredient text (the body is not JSON, it is [null], it has no
    [ingredients], or they are not an array that can be joined) is
    answered from the [catch] block with the error thrown on the way, and
    the upstream is never called. *)
Theorem unusable_request_is_500 env fetch req e :
  method req <> "OPTIONS" ->
  falsy (Deno_env_get env "LOVABLE_API_KEY") = false ->
  and_then (req_json req) (fun parsed =>
  and_then (destructure parsed "ingredients") (fun ingredients =>
  call_join "ingredients" ingredients ", ")) = inl e ->
  fst (handler env fetch req) = inr (caught e)
  /\ upstream_calls (snd (handler env fetch req)) = [].
Proof.
  intros Hmethod Hkey Hbad.
  apply String.eqb_neq in Hmethod.
  destruct (req_json req) as [e1 | parsed] eqn:Hparsed; cbn [and_then] in Hbad.
  { injection Hbad as ->. split; follow_path; reflexivity. }
  destruct (destructure parsed "ingredients") as [e2 | ingredients] eqn:Hing;
    cbn [and_then] in Hbad.
  { injection Hbad as ->. split; follow_path; reflexivity. }
  split; follow_path; reflexivity.
Qed.

(** X3.  The upstream is called only for a request other than OPTIONS whose
    body parsed to something with an array under [ingredients], and only
    with a non-empty credential; the call is a POST to the gateway's
    address that carries the credential as a bearer token. *)
Theorem upstream_call_requirements env fetch req rq out :
  In (Fetch rq out) (snd (handler env fetch req)) ->
  method req <> "OPTIONS"
  /\ (exists parsed elements,
         req_json req = inr parsed
         /\ destructure parsed "ingredients" = inr (Some (JArr elements)))
  /\ (exists key,
         Deno_env_get env "LOVABLE_API_KEY" = Some key
         /\ key <> EmptyString
         /\ fetch_headers rq
            = [("Authorization", "Bearer " ++ key);
               ("Content-Type", "application/json")])
  /\ url rq = "https://ai.gateway.lovable.dev/v1/chat/completions"
  /\ fetch_method rq = "POST".
Proof.
  intros Hcall.
  destruct (call_inversion _ _ _ _ _ Hcall)
    as (joined & [Hmethod (parsed & ingredients & Hparsed & Hing & Hkey & Hjoin)]
        & -> & Hfetch).
  split; [now apply String.eqb_neq |].
  split.
  - exists parsed.
    destruct ingredients as [[| | | | elements |] |]; try discriminate Hjoin.
    now exists elements.
  - split; [| split; reflexivity].
    destruct (Deno_env_get env "LOVABLE_API_KEY") as [[| c key] |];
      try discriminate Hkey.
    eexists. split; [reflexivity |]. split; [discriminate | reflexivity].
Qed.

(** X4.  An empty LOVABLE_API_KEY counts as a missing one: the request is
    answered with status 500, with the configuration message once the body
    has been read, and the upstream is not called. *)
Theorem empty_credential_is_missing env fetch req :
  Deno_env_get env "LOVABLE_API_KEY" = Some EmptyString ->
  method req <> "OPTIONS" ->
  (exists message,
      fst (handler env fetch req)
      = inr (mkResponse (Some (error_body message)) 500 json_headers)
      /\ forall parsed ingredients,
           req_json req = inr parsed ->
           destructure parsed "ingredients" = inr ingredients ->
           message = "LOVABLE_API_KEY is not configured")
  /\ upstream_calls (snd (handler env fetch req)) = [].
Proof.
  intros Hkey Hmethod.
  apply String.eqb_neq in Hmethod.
  destruct (req_json req) as [e | parsed] eqn:Hparsed.
  { split; [eexists; split; [follow_path; reflexivity | intros ? ? [=]] |].
    follow_path. reflexivity. }
  destruct (destructure parsed "ingredients") as [e | ingredients] eqn:Hing.
  { split; [eexists; split; [follow_path; reflexivity |] |].
    - intros ? ? [= <-] Hing'. congruence.
    - follow_path. reflexivity. }
  split; [eexists; split; [follow_path; cbn [falsy]; follow_path; reflexivity |] |].
  - reflexivity.
  - follow_path. cbn [falsy]. follow_path. reflexivity.
Qed.

(** X5.  One invocation calls the upstream at most once: there is no
    retry, whatever the upstream answers. *)
Theorem at_most_one_upstream_call env fetch req :
  List.length (upstream_calls (snd (handler env fetch req))) <= 1.
Proof.
  destruct (handler env fetch req) as [res trace] eqn:Hrun.
  cbn [snd].
  handler_paths Hrun; injection Hrun as <- <-;
    cbn [upstream_calls Datatypes.length]; lia.
Qed.

(** X7.  When the upstream call succeeds but
    [data.choices[0].message.content] cannot be read (the body is not
    JSON, or a step of the path meets [null] or [undefined]), the answer
    is the one of the [catch] block with that error. *)
Theorem unreadable_completion_is_500 env fetch req rq r e :
  In (Fetch rq (Resolves r)) (snd (handler env fetch req)) ->
  ok r = true ->
  and_then (response_json r) message_content = inl e ->
  fst (handler env fetch req) = inr (caught e).
Proof.
  intros Hcall Hok Hbad.
  destruct (call_inversion _ _ _ _ _ Hcall)
    as (joined & [Hmethod (parsed & ingredients & Hparsed & Hing & Hkey & Hjoin)]
        & -> & Hfetch).
  destruct (response_json r) as [e1 | data] eqn:Hdata; cbn [and_then] in Hbad.
  - injection Hbad as ->. follow_path. reflexivity.
  - follow_path. reflexivity.
Qed.

(** X8.  A status 200 is either the answer to OPTIONS, without a body, or
    the recipe envelope around the value parsed from the message content of
    a successful upstream call: no other path answers 200. *)
Theorem ok_answer_is_preflight_or_recipe env fetch req resp :
  fst (handler env fetch req) = inr resp ->
  status resp = 200%N ->
  (method req = "OPTIONS" /\ resp = mkResponse None 200 corsHeaders)
  \/ (exists rq r data content recipe,
         In (Fetch rq (Resolves r)) (snd (handler env fetch req))
         /\ ok r = true
         /\ response_json r = inr data
         /\ message_content data = inr content
         /\ JSON_parse content = inr recipe
         /\ resp = mkResponse (Some (stringify (JObj [("recipe", recipe)])))
                     200 json_headers).
Proof.
  intros Hresp Hstatus.
  destruct (handler env fetch req) as [res trace] eqn:Hrun.
  cbn [fst snd] in *. subst res.
  handler_paths Hrun; injection Hrun as <- <-;
    try discriminate Hstatus.
  - left. split; [now apply String.eqb_eq | reflexivity].
  - right. do 5 eexists.
    split; [cbn [In]; right; left; reflexivity |].
    rewrite Bool.negb_false_iff in *.
    repeat (split; [eassumption |]). reflexivity.
Qed.

(** X10.  The answer has status 500 exactly when the [catch] block ran,
    which logs the error it caught; the body then carries the message of
    that error (or the fallback text). *)
Theorem status_500_iff_caught env fetch req resp :
  fst (handler env fetch req) = inr resp ->
  (status resp = 500%N
   <-> exists e,
         In (ConsoleError [Text "Error in generate-recipe function:"; Err e])
            (snd (handler env fetch req)))
  /\ forall e,
       In (ConsoleError [Text "Error in generate-recipe function:"; Err e])
          (snd (handler env fetch req)) ->
       resp = caught e.
Proof.
  intros Hresp.
  destruct (handler env fetch req) as [res trace] eqn:Hrun.
  cbn [fst snd] in *. subst res.
  handler_paths Hrun; injection Hrun as <- <-;
    (split;
     [ split;
       [ intros Hstatus; first [discriminate Hstatus
                               | eexists; cbn [In]; eauto 6]
       | intros [e0 Hlog]; first [reflexivity | read_trace Hlog] ]
     | intros e0 Hlog; read_trace Hlog;
       try (injection Hlog as <-; reflexivity) ]).
Qed.

(** Split on the first test or call of the goal whose outcome decides the
    path. *)
Ltac case_goal :=
  match goal with
  | |- context [match ?x with _ => _ end] =>
      lazymatch x with
      | context [match _ with _ => _ end] => fail
      | _ => destruct x eqn:?
      end
  end.

(** X6.  The credential reaches the upstream call and nothing else: with
    another (non-empty) credential and an upstream that answers alike, the
    answer and everything written to the console are the same. *)
Theorem credential_not_disclosed env1 env2 fetch1 fetch2 req :
  falsy (Deno_env_get env1 "LOVABLE_API_KEY") = false ->
  falsy (Deno_env_get env2 "LOVABLE_API_KEY") = false ->
  (forall content,
      fetch1 (upstream_request (Deno_env_get env1 "LOVABLE_API_KEY") content)
      = fetch2 (upstream_request (Deno_env_get env2 "LOVABLE_API_KEY") content)) ->
  fst (handler env1 fetch1 req) = fst (handler env2 fetch2 req)
  /\ console (snd (handler env1 fetch1 req))
     = console (snd (handler env2 fetch2 req)).
Proof.
  intros Hkey1 Hkey2 Hsame.
  unfold handler, await_fetch. rewrite Hkey1, Hkey2.
  split;
    repeat first
      [ rewrite Hsame
      | progress cbn [bind ret lift throw try_catch console_log console_error
                      fst snd app console]
      | reflexivity
      | case_goal ].
Qed.

(** X9.  Every answer other than a 200 is a JSON error envelope: its body
    is [JSON.stringify({ error: message })], it is labelled as JSON, and
    reading the body back gives an object with the one member [error]
    holding the message character for character. *)
Theorem failures_are_error_envelopes env fetch req resp :
  fst (handler env fetch req) = inr resp ->
  status resp <> 200%N ->
  exists message,
    body resp = Some (error_body message)
    /\ parse (error_body message) = Some (JObj [("error", JStr message)])
    /\ response_headers resp = json_headers.
Proof.
  intros Hresp Hstatus.
  assert (Hread : forall message,
             parse (error_body message) = Some (JObj [("error", JStr message)])).
  { intros message. unfold error_body. now rewrite parse_stringify. }
  destruct (handler env fetch req) as [res trace] eqn:Hrun.
  cbn [fst] in Hresp. subst res.
  handler_paths Hrun; injection Hrun as <- _;
    cbn [status] in Hstatus; try congruence;
    eexists; (split; [reflexivity |]); (split; [apply Hread | reflexivity]).
Qed.

(** X11.  Whatever characters the ingredients hold, the body of the
    upstream call is well-formed JSON: it reads back as the object with
    the model's name, the two messages (the system turn with the system
    prompt, the user turn with the lead-in and the joined ingredients) and
    the JSON response format. *)
Theorem upstream_body_reads_back env fetch req rq out :
  In (Fetch rq out) (snd (handler env fetch req)) ->
  exists parsed ingredients joined,
    req_json req = inr parsed
    /\ destructure parsed "ingredients" = inr ingredients
    /\ call_join "ingredients" ingredients ", " = inr joined
    /\ parse (fetch_body rq)
       = Some
           (JObj
              [("model", JStr "google/gemini-2.5-flash");
               ("messages",
                JArr
                  [JObj [("role", JStr "system"); ("content", JStr systemPrompt)];
                   JObj [("role", JStr "user");
                         ("content",
                          JStr ("Create a recipe using these ingredients: "
                                ++ joined))]]);
               ("response_format", JObj [("type", JStr "json_object")])]).
Proof.
  intros Hcall.
  destruct (call_inversion _ _ _ _ _ Hcall)
    as (joined & [_ (parsed & ingredients & Hparsed & Hing & _ & Hjoin)]
        & -> & _).
  exists parsed, ingredients, joined.
  repeat (split; [assumption |]).
  cbn [upstream_request fetch_body]. apply chat_request_reads_back.
Qed.

(* ================================================================== *)
(** * More properties of the pages and the table *)
(* ================================================================== *)

Import Store Pages.

(** ** The listing *)

Lemma place_sorted (r : row) (l : list row) :
  StronglySorted (fun a b => (created_at b <= created_at a)%N) l ->
  StronglySorted (fun a b => (created_at b <= created_at a)%N) (place r l).
Proof.
  induction 1 as [| x rest Hsorted IH Hall]; cbn [place].
  - repeat constructor.
  - destruct (N.leb_spec (created_at x) (created_at r)) as [Hle | Hlt].
    + constructor; [now constructor |].
      constructor; [exact Hle |].
      eapply Forall_impl; [| exact Hall]. cbv beta. intros; lia.
    + constructor; [exact IH |].
      eapply Permutation_Forall; [apply place_permutation |].
      constructor; [lia | exact Hall].
Qed.

Lemma newest_first_sorted (l : list row) :
  StronglySorted (fun a b => (created_at b <= created_at a)%N) (newest_first l).
Proof.
  induction l as [| r l IH]; cbn [newest_first fold_right];
    [constructor | now apply place_sorted].
Qed.

(** Leaving rows out of an ordered list and putting a row in place commute. *)
Lemma filter_place (p : row -> bool) (r : row) (l : list row) :
  StronglySorted (fun a b => (created_at b <= created_at a)%N) l ->
  filter p (place r l)
  = if p r then place r (filter p l) else filter p l.
Proof.
  induction 1 as [| x rest Hsorted IH Hall]; cbn [place filter].
  - destruct (p r); reflexivity.
  - destruct (N.leb_spec (created_at x) (created_at r)) as [Hle | Hlt].
    + cbn [filter]. destruct (p r); [| reflexivity].
      assert (Hhead : forall l',
                 Forall (fun y => (created_at y <= created_at r)%N) l' ->
                 place r l' = r :: l').
      { intros [| y l'] Hy; cbn [place]; [reflexivity |].
        inversion Hy; subst.
        destruct (N.leb_spec (created_at y) (created_at r)); [reflexivity | lia]. }
      symmetry. apply Hhead.
      apply (incl_Forall (l1 := x :: rest)).
      * intros y Hy. cbn [filter] in Hy.
        destruct (p x); [| right]; try (destruct Hy as [<- | Hy]; [now left | right]);
          now apply filter_In in Hy.
      * constructor; [exact Hle |].
        eapply Forall_impl; [| exact Hall]. cbv beta. intros; lia.
    + cbn [filter]. rewrite IH.
      destruct (p x), (p r); cbn [place]; try reflexivity.
      destruct (N.leb_spec (created_at x) (created_at r)); [lia | reflexivity].
Qed.

Lemma filter_newest_first (p : row -> bool) (l : list row) :
  filter p (newest_first l) = newest_first (filter p l).
Proof.
  induction l as [| r l IH]; [reflexivity |].
  cbn [newest_first fold_right filter].
  change (fold_right place [] l) with (newest_first l).
  rewrite filter_place by apply newest_first_sorted.
  rewrite IH. destruct (p r); reflexivity.
Qed.

(** What the listing holds once a signed-in user's rows have been fetched. *)
Lemma fetched_rows (st : SavedRecipesPage) (w : world) (u : uuid) :
  session w = Some u ->
  outage w = None ->
  fst (fst (fetchSavedRecipes st w))
  = mkSavedRecipesPage
      (newest_first
         (filter (fun r => (user_id r =? u)%N)
            (filter (fun r => (u =? user_id r)%N) (rows (saved_recipes w)))))
      false (activeTab st).
Proof.
  intros Hsession Houtage.
  unfold fetchSavedRecipes, getUser, select_by_user.
  rewrite Hsession, Houtage. reflexivity.
Qed.

(** X12.  The listing of a signed-in user holds exactly the rows of the
    table that belong to that user, each as often as the table has it, and
    the page is no longer loading. *)
Theorem listing_is_own_rows (st : SavedRecipesPage) (w : world) (u : uuid) :
  session w = Some u ->
  outage w = None ->
  let page := fst (fst (fetchSavedRecipes st w)) in
  (forall x,
      In x (recipes page) <-> In x (rows (saved_recipes w)) /\ user_id x = u)
  /\ Permutation (recipes page)
       (filter (fun r => (user_id r =? u)%N) (rows (saved_recipes w)))
  /\ isLoading page = false.
Proof.
  intros Hsession Houtage page. subst page.
  rewrite (fetched_rows st w u Hsession Houtage). cbn [recipes isLoading].
  assert (Hsame : forall l,
             filter (fun r => (user_id r =? u)%N)
               (filter (fun r => (u =? user_id r)%N) l)
             = filter (fun r => (user_id r =? u)%N) l).
  { induction l as [| r l IH]; [reflexivity |]. cbn [filter].
    rewrite (N.eqb_sym u). destruct (user_id r =? u)%N eqn:Hr; cbn [filter];
      rewrite ?Hr, IH; reflexivity. }
  rewrite Hsame.
  split; [| split; [| reflexivity]].
  - intros x. rewrite newest_first_In, filter_In, N.eqb_eq. reflexivity.
  - apply Permutation_sym, newest_first_permutation.
Qed.

(** X13.  The listing is ordered by [created_at], newest first. *)
Theorem listing_is_newest_first (st : SavedRecipesPage) (w : world) (u : uuid) :
  session w = Some u ->
  outage w = None ->
  StronglySorted (fun a b => (created_at b <= created_at a)%N)
    (recipes (fst (fst (fetchSavedRecipes st w)))).
Proof.
  intros Hsession Houtage.
  rewrite (fetched_rows st w u Hsession Houtage). cbn [recipes].
  apply newest_first_sorted.
Qed.

(** X14.  Deleting from a freshly fetched listing keeps the page and the
    table in step: the rows left on the page are the rows a new fetch
    would show, in the same order. *)
Theorem delete_keeps_listing_in_step
    (st : SavedRecipesPage) (w : world) (u : uuid) (target : uuid) :
  session w = Some u ->
  outage w = None ->
  let page := fst (fst (fetchSavedRecipes st w)) in
  let deleted := handleDelete page w target in
  recipes (page_after deleted)
  = recipes (fst (fst (fetchSavedRecipes page (world_after deleted))))
  /\ forall x, In x (recipes (page_after deleted)) -> id x <> target.
Proof.
  intros Hsession Houtage page deleted. subst deleted page.
  rewrite (fetched_rows st w u Hsession Houtage).
  unfold handleDelete, delete. rewrite Houtage, Hsession.
  unfold page_after, world_after. cbn [fst snd recipes].
  rewrite fetched_rows with (u := u) by reflexivity.
  cbn [recipes saved_recipes rows]. split.
  - rewrite filter_newest_first. f_equal.
    induction (rows (saved_recipes w)) as [| r l IH]; [reflexivity |].
    cbn [filter].
    destruct (u =? user_id r)%N eqn:Hrls; cbn [filter andb negb];
      rewrite ?Bool.andb_true_r, ?Bool.andb_false_r; cbn [negb filter].
    + destruct (user_id r =? u)%N eqn:Hown, (id r =? target)%N eqn:Hid;
        cbn [filter negb]; rewrite ?Hrls, ?Hown, ?Hid; cbn [filter negb];
        rewrite ?Hown, ?Hid; cbn [negb]; rewrite IH; reflexivity.
    + rewrite Hrls. exact IH.
  - intros x Hx. apply filter_In in Hx as [_ Hx].
    apply Bool.negb_true_iff, N.eqb_neq in Hx. exact Hx.
Qed.

(** ** Rows of other users *)

(** X15.  Nothing a signed-in user does on the pages changes a row of
    somebody else: after Save, after Favorite and after Delete, whatever
    the id asked for, the rows of the other users are the ones the table
    had, in the same order. *)
Theorem other_users_rows_untouched
    (w : world) (u : uuid) (st : RecipePage) (listing : SavedRecipesPage)
    (target : uuid) :
  session w = Some u ->
  let others (w' : world) :=
    filter (fun r => negb (user_id r =? u)%N) (rows (saved_recipes w')) in
  others (world_after (handleSaveRecipe st w)) = others w
  /\ others (world_after (handleFavoriteRecipe st w)) = others w
  /\ others (world_after (handleDelete listing w target)) = others w.
Proof.
  intros Hsession others. subst others. cbv beta.
  assert (Hinsert : forall v,
             new_user_id v = u ->
             forall w',
               insert w v = inr w' ->
               filter (fun r => negb (user_id r =? u)%N) (rows (saved_recipes w'))
               = filter (fun r => negb (user_id r =? u)%N) (rows (saved_recipes w))).
  { intros v Hv w' Hw'. unfold insert in Hw'. rewrite Hsession, Hv in Hw'.
    destruct (outage w); [discriminate |].
    rewrite N.eqb_refl in Hw'. injection Hw' as <-.
    cbn [saved_recipes rows]. rewrite filter_app. cbn [filter user_id].
    rewrite N.eqb_refl. cbn [negb]. apply app_nil_r. }
  split; [| split].
  - unfold handleSaveRecipe, getUser, world_after. rewrite Hsession.
    destruct (recipe st) as [r |]; [| reflexivity].
    destruct (insert w _) as [m | w'] eqn:Hw'; cbn [fst snd]; [reflexivity |].
    eapply Hinsert; [| exact Hw']. reflexivity.
  - unfold handleFavoriteRecipe, getUser, world_after. rewrite Hsession.
    destruct (recipe st) as [r |]; [| reflexivity].
    destruct (insert w _) as [m | w'] eqn:Hw'; cbn [fst snd]; [reflexivity |].
    eapply Hinsert; [| exact Hw']. reflexivity.
  - unfold handleDelete, delete, world_after. rewrite Hsession.
    destruct (outage w); cbn [fst snd saved_recipes rows]; [reflexivity |].
    clear Hinsert.
    induction (rows (saved_recipes w)) as [| r l IH]; [reflexivity |].
    cbn [filter]. rewrite (N.eqb_sym u).
    destruct (user_id r =? u)%N eqn:Hown; cbn [negb];
      rewrite ?Bool.andb_true_r, ?Bool.andb_false_r; cbn [negb].
    + destruct (id r =? target)%N; cbn [negb filter]; rewrite ?Hown; exact IH.
    + cbn [filter]. rewrite Hown. cbn [negb]. now rewrite IH.
Qed.

(** X16.  Without a session nothing is written or removed: Save and
    Favorite report that the user is not authenticated and leave the page's
    Saved and Favorited marks as they were, and Delete removes no row of
    the table. *)
Theorem signed_out_changes_nothing
    (w : world) (st : RecipePage) (listing : SavedRecipesPage)
    (r : Recipe) (target : uuid) :
  session w = None ->
  recipe st = Some r ->
  handleSaveRecipe st w
  = (mkRecipePage (Some r) false (isFavoriting st) (isSaved st) (isFavorited st),
     w, [mkToast "Error" "Not authenticated" true])
  /\ handleFavoriteRecipe st w
     = (mkRecipePage (Some r) (isSaving st) false (isSaved st) (isFavorited st),
        w, [mkToast "Error" "Not authenticated" true])
  /\ rows (saved_recipes (world_after (handleDelete listing w target)))
     = rows (saved_recipes w).
Proof.
  intros Hsession Hrecipe.
  split; [| split].
  - unfold handleSaveRecipe, getUser. now rewrite Hrecipe, Hsession.
  - unfold handleFavoriteRecipe, getUser. now rewrite Hrecipe, Hsession.
  - unfold handleDelete, delete, world_after. rewrite Hsession.
    destruct (outage w); cbn [fst snd saved_recipes rows]; [reflexivity |].
    induction (rows (saved_recipes w)) as [| x l IH]; [reflexivity |].
    cbn [filter]. rewrite Bool.andb_false_r. cbn [negb]. now rewrite IH.
Qed.

(** X17.  When the store refuses a call, the action reports the store's
    message (or its own fallback text when the message is empty) in a
    destructive toast, writes nothing, and leaves the page's marks and
    list as they were. *)
Theorem store_failure_changes_nothing
    (w : world) (u : uuid) (message : string)
    (st : RecipePage) (listing : SavedRecipesPage) (r : Recipe) (target : uuid) :
  session w = Some u ->
  outage w = Some message ->
  recipe st = Some r ->
  handleSaveRecipe st w
  = (mkRecipePage (Some r) false (isFavoriting st) (isSaved st) (isFavorited st),
     w, [mkToast "Error" (or_else message "Failed to save recipe.") true])
  /\ handleFavoriteRecipe st w
     = (mkRecipePage (Some r) (isSaving st) false (isSaved st) (isFavorited st),
        w, [mkToast "Error" (or_else message "Failed to add to favorites.") true])
  /\ handleDelete listing w target
     = (listing, w,
        [mkToast "Error" (or_else message "Failed to delete recipe.") true])
  /\ fetchSavedRecipes listing w
     = (mkSavedRecipesPage (recipes listing) false (activeTab listing),
        [mkToast "Error" (or_else message "Failed to fetch saved recipes.") true],
        None).
Proof.
  intros Hsession Houtage Hrecipe.
  repeat split.
  - unfold handleSaveRecipe, getUser, insert.
    now rewrite Hrecipe, Hsession, Houtage.
  - unfold handleFavoriteRecipe, getUser, insert.
    now rewrite Hrecipe, Hsession, Houtage.
  - unfold handleDelete, delete. now rewrite Houtage.
  - unfold fetchSavedRecipes, getUser, select_by_user.
    now rewrite Hsession, Houtage.
Qed.

(** ** The buttons of the Recipe page *)

(** X18.  The Save button saves once: after a click that saved, further
    clicks do nothing, so one visit to the page adds one saved row, while
    the handler run twice would add two. *)
Theorem save_button_saves_once
    (st : RecipePage) (w : world) (r : Recipe) (u : uuid) :
  recipe st = Some r ->
  session w = Some u ->
  outage w = None ->
  isSaving st = false ->
  isSaved st = false ->
  let t := saved_recipes w in
  let row n := mkRow n u (name r) r false (now t) (now t) in
  let once := clickSave st w in
  let twice := clickSave (page_after once) (world_after once) in
  let handler_twice :=
    handleSaveRecipe (page_after once) (world_after once) in
  rows (saved_recipes (world_after once)) = (rows t ++ [row (next_uuid t)])%list
  /\ twice = (page_after once, world_after once, [])
  /\ rows (saved_recipes (world_after handler_twice))
     = (rows t ++ [row (next_uuid t); row (next_uuid t + 1)%N])%list.
Proof.
  intros Hrecipe Hsession Houtage Hsaving Hsaved t row once twice handler_twice.
  assert (Honce : once = handleSaveRecipe st w).
  { subst once. unfold clickSave. now rewrite Hsaving, Hsaved. }
  pose proof (save_inserts st w r u Hrecipe Hsession Houtage) as Hsave.
  cbv zeta in Hsave. fold t in Hsave. rewrite <- Honce in Hsave.
  subst twice handler_twice. rewrite Hsave.
  unfold page_after, world_after. cbn [fst snd].
  split; [reflexivity |]. split; [reflexivity |].
  rewrite save_inserts with (r := r) (u := u) by reflexivity.
  cbn [fst snd saved_recipes rows next_uuid now].
  now rewrite <- app_assoc.
Qed.

(** ** The tabs *)

(** X19.  Once rows have been fetched the page shows the two tabs; their
    counters add up to the number of rows fetched, and at least one of the
    two tabs has a row to show. *)
Theorem tabs_cover_the_listing (page : SavedRecipesPage) :
  isLoading page = false ->
  recipes page <> [] ->
  render page = Tabs (savedRecipes page) (favoriteRecipes page)
  /\ List.length (savedRecipes page) + List.length (favoriteRecipes page)
     = List.length (recipes page)
  /\ (savedRecipes page <> [] \/ favoriteRecipes page <> []).
Proof.
  intros Hloading Hrows.
  split; [| split].
  - unfold render. rewrite Hloading.
    destruct (recipes page); [congruence | reflexivity].
  - apply tabs_count.
  - pose proof (tabs_count page) as Hcount.
    destruct (savedRecipes page); [| left; discriminate].
    destruct (favoriteRecipes page); [| right; discriminate].
    destruct (recipes page); [congruence | discriminate Hcount].
Qed.

(* ================================================================== *)
(** * Properties of the Index page *)
(* ================================================================== *)

Import IndexPage.

(** ** [trim] *)

(** [strip] either returns its argument or goes on after one encoding. *)
Lemma strip_cases (f : bool) (cs : list ascii) :
  strip f cs = cs
  \/ exists skipped rest,
       cs = (skipped ++ rest)%list /\ skipped <> []
       /\ strip f cs = strip f rest.
Proof.
  destruct cs as [| a r1]; [now left |]. cbn [strip].
  destruct (ws1 (N_of_ascii a)).
  { right. exists [a], r1. repeat split; discriminate. }
  destruct r1 as [| b r2]; [now left |].
  match goal with |- context [if ?t then strip f r2 else _] => destruct t end.
  { right. exists [a; b], r2. repeat split; discriminate. }
  destruct r2 as [| c r3]; [now left |].
  match goal with |- context [if ?t then strip f r3 else _] => destruct t end.
  { right. exists [a; b; c], r3. repeat split; discriminate. }
  now left.
Qed.

Lemma strip_induction (f : bool) (P : list ascii -> Prop) :
  (forall cs, strip f cs = cs -> P cs) ->
  (forall skipped rest,
      skipped <> [] -> strip f (skipped ++ rest)%list = strip f rest ->
      P rest -> P (skipped ++ rest)%list) ->
  forall cs, P cs.
Proof.
  intros Hstop Hskip cs.
  remember (List.length cs) as n eqn:Hn.
  revert cs Hn. induction n as [n IH] using lt_wf_ind. intros cs ->.
  destruct (strip_cases f cs) as [Hfix | (skipped & rest & -> & Hne & Heq)].
  - now apply Hstop.
  - apply Hskip; [exact Hne | exact Heq |].
    apply (IH (List.length rest)); [| reflexivity].
    rewrite length_app. destruct skipped; [congruence | cbn; lia].
Qed.

Lemma strip_idempotent (f : bool) (cs : list ascii) :
  strip f (strip f cs) = strip f cs.
Proof.
  induction cs as [cs Hfix | skipped rest _ Heq IH] using (strip_induction f).
  - now rewrite Hfix.
  - now rewrite Heq.
Qed.

Lemma strip_suffix (f : bool) (cs : list ascii) :
  exists dropped, cs = (dropped ++ strip f cs)%list.
Proof.
  induction cs as [cs Hfix | skipped rest _ Heq [dropped IH]]
    using (strip_induction f).
  - exists []. now rewrite Hfix.
  - exists (skipped ++ dropped)%list. rewrite Heq, <- app_assoc. now f_equal.
Qed.

(** A text without white space at its head has none after losing its end. *)
Lemma strip_prefix (a b : list ascii) :
  strip true (a ++ b)%list = (a ++ b)%list -> strip true a = a.
Proof.
  intros Hclean.
  assert (Hle : forall cs, List.length (strip true cs) <= List.length cs).
  { intros cs. destruct (strip_suffix true cs) as [dropped Hd].
    rewrite Hd at 2. rewrite length_app. lia. }
  assert (Hskip : forall rest,
             strip true (a ++ b)%list = strip true rest ->
             List.length rest < List.length (a ++ b)%list -> False).
  { intros rest Heq Hlt. pose proof (Hle rest) as H.
    rewrite <- Heq, Hclean in H. lia. }
  destruct a as [| x [| y [| z a']]]; try reflexivity; cbn [app] in *.
  - cbn [strip]. destruct (ws1 (N_of_ascii x)) eqn:Hx; [| reflexivity].
    exfalso. apply (Hskip b); [cbn [strip]; now rewrite Hx | cbn; lia].
  - cbn [strip]. destruct (ws1 (N_of_ascii x)) eqn:Hx.
    { exfalso. apply (Hskip (y :: b)); [cbn [strip]; now rewrite Hx | cbn; lia]. }
    destruct (ws2 (N_of_ascii x) (N_of_ascii y)) eqn:Hxy; [| reflexivity].
    exfalso. apply (Hskip b); [cbn [strip]; now rewrite Hx, Hxy | cbn; lia].
  - cbn [strip]. destruct (ws1 (N_of_ascii x)) eqn:Hx.
    { exfalso. apply (Hskip (y :: z :: a' ++ b)%list);
        [cbn [strip]; now rewrite Hx | cbn; lia]. }
    destruct (ws2 (N_of_ascii x) (N_of_ascii y)) eqn:Hxy.
    { exfalso. apply (Hskip (z :: a' ++ b)%list);
        [cbn [strip]; now rewrite Hx, Hxy | cbn; lia]. }
    destruct (ws3 (N_of_ascii x) (N_of_ascii y) (N_of_ascii z)) eqn:Hxyz;
      [| reflexivity].
    exfalso. apply (Hskip (a' ++ b)%list);
      [cbn [strip]; now rewrite Hx, Hxy, Hxyz | cbn; lia].
Qed.

(** Trimming what is trimmed changes nothing. *)
Lemma trim_idempotent (s : string) : trim (trim s) = trim s.
Proof.
  unfold trim. rewrite list_ascii_of_string_of_list_ascii.
  set (A := strip true (list_ascii_of_string s)).
  set (Y := strip false (rev A)).
  assert (Hhead : strip true (rev Y) = rev Y).
  { destruct (strip_suffix false (rev A)) as [dropped Hd]. fold Y in Hd.
    apply (strip_prefix (rev Y) (rev dropped)).
    rewrite <- rev_app_distr, <- Hd, rev_involutive.
    apply strip_idempotent. }
  rewrite Hhead, rev_involutive. unfold Y. now rewrite strip_idempotent.
Qed.

(** ** The ingredient list *)

Lemma includes_In (l : list string) (x : string) :
  includes l x = true <-> In x l.
Proof.
  unfold includes. rewrite existsb_exists. split.
  - intros [y [Hy Heq]]. apply String.eqb_eq in Heq. now subst.
  - intros Hx. exists x. split; [exact Hx | apply String.eqb_refl].
Qed.

Lemma act_tidy (st : IndexPage) (a : action) :
  tidy (ingredients st) -> tidy (ingredients (act st a)).
Proof.
  intros [Hnodup Hall].
  assert (Hadd : tidy (ingredients (addIngredient st))).
  { unfold addIngredient.
    destruct (String.eqb_spec (trim (currentIngredient st)) EmptyString)
      as [| Hne]; cbn [negb andb]; [now split |].
    destruct (includes (ingredients st) (trim (currentIngredient st))) eqn:Hin;
      cbn [negb ingredients]; [now split |].
    assert (Hnew : ~ In (trim (currentIngredient st)) (ingredients st)).
    { rewrite <- includes_In, Hin. discriminate. }
    split.
    - apply NoDup_app; [exact Hnodup | repeat constructor; intros [] |].
      intros x Hx [<- | []]. contradiction.
    - apply Forall_app. split; [exact Hall |].
      constructor; [| constructor]. split; [exact Hne | apply trim_idempotent]. }
  destruct a as [text | | key | ingredient |]; cbn [act].
  - now split.
  - exact Hadd.
  - unfold onKeyPress. destruct (String.eqb key "Enter"); [exact Hadd | now split].
  - cbn [removeIngredient ingredients]. split.
    + now apply NoDup_filter.
    + apply Forall_forall. intros x Hx. apply filter_In in Hx as [Hx _].
      rewrite Forall_forall in Hall. now apply Hall.
  - cbn [handleReset ingredients]. split; constructor.
Qed.

(** X20.  Whatever the user types, adds, removes or resets, the list never
    holds an ingredient twice, an empty one, or one with white space
    around it. *)
Theorem ingredient_list_stays_tidy (actions : list action) :
  tidy (ingredients (fold_left act actions initial)).
Proof.
  assert (Hgen : forall st, tidy (ingredients st) ->
                            tidy (ingredients (fold_left act actions st))).
  { induction actions as [| a actions IH]; intros st Hst; [exact Hst |].
    cbn [fold_left]. apply IH. now apply act_tidy. }
  apply Hgen. split; constructor.
Qed.

(** X21.  Removing an ingredient takes it off the list and keeps the
    others in their order; removing the ingredient just added gives back
    the list as it was before. *)
Theorem add_then_remove (st : IndexPage) :
  let added := trim (currentIngredient st) in
  added <> EmptyString ->
  ~ In added (ingredients st) ->
  ingredients (addIngredient st) = (ingredients st ++ [added])%list
  /\ currentIngredient (addIngredient st) = EmptyString
  /\ ingredients (removeIngredient (addIngredient st) added) = ingredients st
  /\ forall x, ~ In x (ingredients (removeIngredient st x)).
Proof.
  intros added Hne Hnew.
  assert (Hadd : addIngredient st
                 = mkIndexPage (ingredients st ++ [added])%list EmptyString
                     (isLoading st)).
  { unfold addIngredient. fold added.
    apply String.eqb_neq in Hne. rewrite Hne.
    destruct (includes (ingredients st) added) eqn:Hin; [| reflexivity].
    apply includes_In in Hin. contradiction. }
  rewrite Hadd. cbn [ingredients currentIngredient removeIngredient].
  split; [reflexivity |]. split; [reflexivity |]. split.
  - rewrite filter_app. cbn [filter]. rewrite String.eqb_refl. cbn [negb].
    rewrite app_nil_r.
    clear Hadd. revert Hnew. generalize (ingredients st) as l.
    induction l as [| y l IH]; intros Hnew; [reflexivity |].
    cbn [filter]. destruct (String.eqb_spec y added) as [-> | Hy].
    + exfalso. apply Hnew. now left.
    + cbn [negb]. f_equal. apply IH. intros Hin. apply Hnew. now right.
  - intros x Hx. apply filter_In in Hx as [_ Hx].
    rewrite String.eqb_refl in Hx. discriminate.
Qed.

(** ** The call of the edge function *)

(** X22.  Generate Recipe calls the edge function once with the page's
    ingredients as they are, or not at all when the list is empty; the
    list is left as it is and the page is no longer loading after a
    call. *)
Theorem generate_invokes_once_or_never (st : IndexPage)
    (invoke : string -> value -> invoke_result) :
  let out := generateRecipe st invoke in
  invocations (snd out)
  = match ingredients st with
    | [] => []
    | l => [("generate-recipe", JObj [("ingredients", JArr (map JStr l))])]
    end
  /\ ingredients (fst out) = ingredients st
  /\ isLoading (fst out)
     = match ingredients st with
       | [] => isLoading st
       | _ => false
       end.
Proof.
  unfold generateRecipe.
  destruct (ingredients st) as [| x l] eqn:Hl; cbn [fst snd invocations].
  - now rewrite Hl.
  - destruct (invoke _ _) as [message | data]; cbn [fst snd invocations ingredients isLoading];
      [auto |].
    destruct (optional_recipe data) as [recipe |];
      [destruct (truthy recipe) |];
      cbn [fst snd invocations ingredients isLoading]; auto.
Qed.

(** X23.  The page moves on only with a recipe: a navigation goes to
    /recipe with the recipe found in the function's data, which counts as
    true, and it comes with the success toast; a toast that is not
    destructive is shown only together with the navigation; and when the
    data holds no such recipe the action ends without any toast, log or
    navigation. *)
Theorem navigation_needs_a_recipe (st : IndexPage)
    (invoke : string -> value -> invoke_result) :
  let effects := snd (generateRecipe st invoke) in
  let body := JObj [("ingredients", JArr (map JStr (ingredients st)))] in
  (forall path state,
      In (Navigate path state) effects ->
      ingredients st <> []
      /\ path = "/recipe"
      /\ In (Toast (mkToast "Recipe generated!" "Your delicious recipe is ready."
                      false)) effects
      /\ exists data recipe,
           invoke "generate-recipe" body = InvokeData data
           /\ optional_recipe data = Some recipe
           /\ truthy recipe = true
           /\ state = JObj [("recipe", recipe)])
  /\ (forall t,
        In (Toast t) effects ->
        destructive t = false ->
        exists state, In (Navigate "/recipe" state) effects)
  /\ (forall data,
        ingredients st <> [] ->
        invoke "generate-recipe" body = InvokeData data ->
        match optional_recipe data with
        | Some recipe => truthy recipe = false
        | None => True
        end ->
        effects = [Invoke "generate-recipe" body]).
Proof.
  intros effects body. subst effects body. unfold generateRecipe.
  destruct (ingredients st) as [| x l] eqn:Hl.
  { split; [| split].
    - intros path state [H | []]. discriminate H.
    - intros t [H | []]. injection H as <-. discriminate.
    - intros data Hne. congruence. }
  destruct (invoke _ _) as [message | data] eqn:Hdata.
  { split; [| split].
    - intros path state Hin. cbn [snd In] in Hin.
      repeat (destruct Hin as [Hin | Hin]; try discriminate Hin). contradiction.
    - intros t Hin. cbn [snd In] in Hin.
      repeat (destruct Hin as [Hin | Hin]; try discriminate Hin);
        [| contradiction].
      injection Hin as <-. discriminate.
    - intros data _ [=]. }
  destruct (optional_recipe data) as [recipe |] eqn:Hrecipe;
    [destruct (truthy recipe) eqn:Htruthy |]; cbn [snd]; (split; [| split]).
  - intros path state Hin. cbn [In] in Hin.
    repeat (destruct Hin as [Hin | Hin]; try discriminate Hin);
      [| contradiction].
    injection Hin as <- <-.
    split; [discriminate |]. split; [reflexivity |].
    split; [cbn [In]; auto |].
    exists data, recipe. auto.
  - intros t _ _. eexists. cbn [In]. right. right. left. reflexivity.
  - intros data' _ [= <-]. rewrite Hrecipe, Htruthy. discriminate.
  - intros path state [Hin | []]. discriminate Hin.
  - intros t [Hin | []]. discriminate Hin.
  - reflexivity.
  - intros path state [Hin | []]. discriminate Hin.
  - intros t [Hin | []]. discriminate Hin.
  - reflexivity.
Qed.

(** X24.  A destructive toast has one of two causes: the list was empty,
    and then the function was not called; or the call of the function
    failed, and then the toast carries the error's message, or the page's
    own text when the message is empty, and the error was logged. *)
Theorem destructive_toast_causes (st : IndexPage)
    (invoke : string -> value -> invoke_result) (t : toast) :
  let effects := snd (generateRecipe st invoke) in
  let body := JObj [("ingredients", JArr (map JStr (ingredients st)))] in
  In (Toast t) effects ->
  destructive t = true ->
  (ingredients st = []
   /\ t = mkToast "Add some ingredients"
            "Please add at least one ingredient to generate a recipe." true
   /\ invocations effects = [])
  \/ (ingredients st <> []
      /\ exists message,
           invoke "generate-recipe" body = InvokeError message
           /\ t = mkToast "Error"
                    (or_else message
                       "Failed to generate recipe. Please try again.") true
           /\ In (LogError "Error generating recipe:" message) effects).
Proof.
  intros effects body. subst effects body. unfold generateRecipe.
  destruct (ingredients st) as [| x l] eqn:Hl.
  { intros [H | []] _. injection H as <-. left. auto. }
  destruct (invoke _ _) as [message | data] eqn:Hdata.
  { intros Hin _. cbn [snd In] in Hin.
    repeat (destruct Hin as [Hin | Hin]; try discriminate Hin);
      [| contradiction].
    injection Hin as <-. right. split; [discriminate |].
    exists message. cbn [snd In]. auto. }
  destruct (optional_recipe data) as [recipe |];
    [destruct (truthy recipe) |]; cbn [snd In]; intros Hin Hd;
    repeat (destruct Hin as [Hin | Hin]; try discriminate Hin);
    try contradiction.
  injection Hin as <-. discriminate Hd.
Qed.

(** ** From the page's list to the upstream prompt *)

Lemma strings_read_back (l : list string) :
  number_free (JObj [("ingredients", JArr (map JStr l))]) = true
  /\ rebuilt (JObj [("ingredients", JArr (map JStr l))])
     = JObj [("ingredients", JArr (map JStr l))].
Proof.
  cbn [number_free rebuilt forallb fold_left fst snd set_member].
  split.
  - rewrite Bool.andb_true_r.
    induction l as [| x l IH]; [reflexivity | exact IH].
  - do 3 f_equal. rewrite map_map. reflexivity.
Qed.

(** X25.  The body Generate Recipe hands to the function, serialised with
    [JSON.stringify] and posted to the handler, comes out in the upstream
    call: the body of that call reads as the chat object whose user turn
    is the lead-in followed by the page's ingredients joined by a comma
    and a space, whatever characters the ingredients are made of. *)
Theorem page_ingredients_reach_the_prompt (st : IndexPage)
    (invoke : string -> value -> invoke_result)
    env fetch (body : value) :
  In (Invoke "generate-recipe" body) (snd (generateRecipe st invoke)) ->
  falsy (Deno_env_get env "LOVABLE_API_KEY") = false ->
  let req := mkRequest "POST" (stringify body) in
  let content :=
    "Create a recipe using these ingredients: "
    ++ String.concat ", " (ingredients st) in
  ingredients st <> []
  /\ exists rq,
       In (Fetch rq (fetch rq)) (snd (handler env fetch req))
       /\ url rq = "https://ai.gateway.lovable.dev/v1/chat/completions"
       /\ parse (fetch_body rq)
          = Some
              (JObj
                 [("model", JStr "google/gemini-2.5-flash");
                  ("messages",
                   JArr
                     [JObj [("role", JStr "system");
                            ("content", JStr systemPrompt)];
                      JObj [("role", JStr "user"); ("content", JStr content)]]);
                  ("response_format", JObj [("type", JStr "json_object")])])
       /\ fetch_body rq
          = template "{'model':'google/gemini-2.5-flash','messages':[{'role':'system','content':"
            ++ quote systemPrompt
            ++ template "},{'role':'user','content':"
            ++ quote content
            ++ template "}],'response_format':{'type':'json_object'}}".
Proof.
  intros Hcall Hkey req content.
  assert (Hbody : ingredients st <> []
                  /\ body = JObj [("ingredients",
                                   JArr (map JStr (ingredients st)))]).
  { unfold generateRecipe in Hcall.
    destruct (ingredients st) as [| x l] eqn:Hl.
    - cbn [snd In] in Hcall. destruct Hcall as [H | []]. discriminate H.
    - split; [discriminate |].
      destruct (invoke _ _) as [message | data];
        [| destruct (optional_recipe data) as [recipe |];
           [destruct (truthy recipe) |]];
        cbn [snd In] in Hcall;
        repeat (destruct Hcall as [Hcall | Hcall]; try discriminate Hcall);
        try contradiction; now injection Hcall as <-. }
  destruct Hbody as [Hne ->]. split; [exact Hne |].
  destruct (strings_read_back (ingredients st)) as [Hfree Hrebuilt].
  eexists. split.
  - apply (call_made env fetch req).
    split; [reflexivity |].
    eexists. eexists.
    split; [unfold req, req_json, parse_body; cbn [payload];
            rewrite (parse_stringify _ Hfree), Hrebuilt; reflexivity |].
    split; [reflexivity |]. split; [exact Hkey |].
    cbn [get_member String.eqb call_join]. apply Array_join_strings.
  - cbn [upstream_request url fetch_body].
    split; [reflexivity |].
    split; [apply chat_request_reads_back | apply chat_request_text].
Qed.

(* ================================================================== *)
(** * The properties above on sample runs *)
(* ================================================================== *)

Lemma network_failure_is_500_witness :
  fst (handler configured offline chicken_rice)
  = inr (mkResponse (Some (template "{'error':'error sending request'}"))
           500 json_headers)
  /\ In (ConsoleError [Text "Error in generate-recipe function:";
                       Err (TypeError "error sending request")])
        (snd (handler configured offline chicken_rice)).
Proof.
  refine (network_failure_is_500 configured offline chicken_rice _
            (TypeError "error sending request") _).
  lazy. right. left. reflexivity.
Defined.

Lemma unusable_request_is_500_witness :
  fst (handler configured (replies 200 "unused") not_json)
  = inr (mkResponse (Some (template "{'error':'Unexpected token in JSON'}"))
           500 json_headers)
  /\ upstream_calls (snd (handler configured (replies 200 "unused") not_json)) = [].
Proof.
  refine (unusable_request_is_500 configured (replies 200 "unused") not_json
            (SyntaxError "Unexpected token in JSON") _ _ _).
  - discriminate.
  - reflexivity.
  - vm_compute. reflexivity.
Defined.

Lemma upstream_call_requirements_witness :
  method chicken_rice <> "OPTIONS"
  /\ (exists parsed elements,
         req_json chicken_rice = inr parsed
         /\ destructure parsed "ingredients" = inr (Some (JArr elements)))
  /\ (exists key,
         Deno_env_get configured "LOVABLE_API_KEY" = Some key
         /\ key <> EmptyString
         /\ fetch_headers (upstream_request (Some "secret")
                             "Create a recipe using these ingredients: chicken, rice")
            = [("Authorization", "Bearer " ++ key);
               ("Content-Type", "application/json")])
  /\ url (upstream_request (Some "secret")
            "Create a recipe using these ingredients: chicken, rice")
     = "https://ai.gateway.lovable.dev/v1/chat/completions"
  /\ fetch_method (upstream_request (Some "secret")
                     "Create a recipe using these ingredients: chicken, rice")
     = "POST".
Proof.
  refine (upstream_call_requirements configured (replies 429 "slow down")
            chicken_rice _ (Resolves (mkUpstream 429 "slow down")) _).
  lazy. right. left. reflexivity.
Defined.

Lemma empty_credential_is_missing_witness :
  fst (handler empty_key (replies 200 "unused") chicken_rice)
  = inr (mkResponse (Some (template "{'error':'LOVABLE_API_KEY is not configured'}"))
           500 json_headers)
  /\ upstream_calls (snd (handler empty_key (replies 200 "unused") chicken_rice))
     = [].
Proof.
  destruct (empty_credential_is_missing empty_key (replies 200 "unused")
              chicken_rice)
    as [[message [Hresp Hmessage]] Hnone].
  - reflexivity.
  - discriminate.
  - split; [| exact Hnone].
    rewrite Hresp. rewrite (Hmessage _ _ eq_refl eq_refl). reflexivity.
Defined.

Lemma credential_not_disclosed_witness :
  let reply := completion_with (template "'{\'dish\':[1,2]}'") in
  fst (handler configured (replies 200 reply) chicken_rice)
  = fst (handler rotated (replies 200 reply) chicken_rice)
  /\ console (snd (handler configured (replies 200 reply) chicken_rice))
     = console (snd (handler rotated (replies 200 reply) chicken_rice)).
Proof.
  intros reply.
  refine (credential_not_disclosed configured rotated (replies 200 reply)
            (replies 200 reply) chicken_rice _ _ _).
  - reflexivity.
  - reflexivity.
  - intros content. reflexivity.
Defined.

Lemma unreadable_completion_is_500_witness :
  fst (handler configured (replies 200 "{}") chicken_rice)
  = inr (caught (TypeError "Cannot read properties of undefined (reading '0')")).
Proof.
  refine (unreadable_completion_is_500 configured (replies 200 "{}") chicken_rice
            _ (mkUpstream 200 "{}")
            (TypeError "Cannot read properties of undefined (reading '0')")
            _ _ _).
  - lazy. right. left. reflexivity.
  - reflexivity.
  - vm_compute. reflexivity.
Defined.

Lemma ok_answer_is_preflight_or_recipe_witness :
  let reply := completion_with (template "'{\'dish\':[1,2]}'") in
  let resp := mkResponse (Some (template "{'recipe':{'dish':[1,2]}}")) 200
                json_headers in
  (method chicken_rice = "OPTIONS" /\ resp = mkResponse None 200 corsHeaders)
  \/ (exists rq r data content recipe,
         In (Fetch rq (Resolves r))
            (snd (handler configured (replies 200 reply) chicken_rice))
         /\ ok r = true
         /\ response_json r = inr data
         /\ message_content data = inr content
         /\ JSON_parse content = inr recipe
         /\ resp = mkResponse (Some (stringify (JObj [("recipe", recipe)])))
                     200 json_headers).
Proof.
  intros reply resp.
  refine (ok_answer_is_preflight_or_recipe configured (replies 200 reply)
            chicken_rice resp _ _).
  - vm_compute. reflexivity.
  - reflexivity.
Defined.

Lemma failures_are_error_envelopes_witness :
  exists message,
    Some (template "{'error':'Rate limit exceeded. Please try again later.'}")
    = Some (error_body message)
    /\ parse (error_body message) = Some (JObj [("error", JStr message)])
    /\ json_headers = json_headers.
Proof.
  refine (failures_are_error_envelopes configured (replies 429 "slow down")
            chicken_rice
            (mkResponse
               (Some (template
                  "{'error':'Rate limit exceeded. Please try again later.'}"))
               429 json_headers) _ _).
  - vm_compute. reflexivity.
  - discriminate.
Defined.

Lemma status_500_iff_caught_witness :
  let run := handler unconfigured (replies 200 "unused") chicken_rice in
  let resp :=
    mkResponse (Some (template "{'error':'LOVABLE_API_KEY is not configured'}"))
      500 json_headers in
  (status resp = 500%N
   <-> exists e,
         In (ConsoleError [Text "Error in generate-recipe function:"; Err e])
            (snd run))
  /\ forall e,
       In (ConsoleError [Text "Error in generate-recipe function:"; Err e])
          (snd run) ->
       resp = caught e.
Proof.
  intros run resp.
  refine (status_500_iff_caught unconfigured (replies 200 "unused") chicken_rice
            resp _).
  vm_compute. reflexivity.
Defined.

Lemma upstream_body_reads_back_witness :
  exists rq,
    In (Fetch rq (Resolves (mkUpstream 429 "slow down")))
       (snd (handler configured (replies 429 "slow down") chicken_rice))
    /\ fetch_body rq = chicken_rice_body
    /\ exists parsed ingredients joined,
         req_json chicken_rice = inr parsed
         /\ destructure parsed "ingredients" = inr ingredients
         /\ call_join "ingredients" ingredients ", " = inr joined
         /\ parse (fetch_body rq)
            = Some
                (JObj
                   [("model", JStr "google/gemini-2.5-flash");
                    ("messages",
                     JArr
                       [JObj [("role", JStr "system");
                              ("content", JStr systemPrompt)];
                        JObj [("role", JStr "user");
                              ("content",
                               JStr ("Create a recipe using these ingredients: "
                                     ++ joined))]]);
                    ("response_format", JObj [("type", JStr "json_object")])]).
Proof.
  eexists.
  match goal with
  | |- ?A /\ _ => assert (Hcall : A) by (lazy; right; left; reflexivity)
  end.
  split; [exact Hcall |].
  split; [vm_compute; reflexivity |].
  exact (upstream_body_reads_back configured (replies 429 "slow down")
           chicken_rice _ _ Hcall).
Defined.

Lemma listing_is_own_rows_witness :
  let page := fst (fst (fetchSavedRecipes opening two_cooks)) in
  (forall x,
      In x (recipes page)
      <-> In x (rows (saved_recipes two_cooks)) /\ user_id x = 7%N)
  /\ Permutation (recipes page)
       (filter (fun r => (user_id r =? 7)%N) (rows (saved_recipes two_cooks)))
  /\ Pages.isLoading page = false.
Proof.
  refine (listing_is_own_rows opening two_cooks 7%N _ _); reflexivity.
Defined.

Lemma listing_is_newest_first_witness :
  StronglySorted (fun a b => (created_at b <= created_at a)%N)
    (recipes (fst (fst (fetchSavedRecipes opening two_cooks)))).
Proof.
  refine (listing_is_newest_first opening two_cooks 7%N _ _); reflexivity.
Defined.

Lemma delete_keeps_listing_in_step_witness :
  let page := fst (fst (fetchSavedRecipes opening two_cooks)) in
  let deleted := handleDelete page two_cooks 1%N in
  recipes (page_after deleted)
  = recipes (fst (fst (fetchSavedRecipes page (world_after deleted))))
  /\ forall x, In x (recipes (page_after deleted)) -> id x <> 1%N.
Proof.
  refine (delete_keeps_listing_in_step opening two_cooks 7%N 1%N _ _);
    reflexivity.
Defined.

(** Asking for the deletion of the row of somebody else removes nothing. *)
Lemma other_users_rows_untouched_witness :
  let others (w' : world) :=
    filter (fun r => negb (user_id r =? 7)%N) (rows (saved_recipes w')) in
  others (world_after (handleSaveRecipe showing_pilaf two_cooks))
  = others two_cooks
  /\ others (world_after (handleFavoriteRecipe showing_pilaf two_cooks))
     = others two_cooks
  /\ others (world_after (handleDelete opening two_cooks 0%N)) = others two_cooks.
Proof.
  refine (other_users_rows_untouched two_cooks 7%N showing_pilaf opening 0%N _).
  reflexivity.
Defined.

Lemma signed_out_changes_nothing_witness :
  handleSaveRecipe showing_pilaf signed_out
  = (mkRecipePage (Some pilaf) false false false false,
     signed_out, [mkToast "Error" "Not authenticated" true])
  /\ handleFavoriteRecipe showing_pilaf signed_out
     = (mkRecipePage (Some pilaf) false false false false,
        signed_out, [mkToast "Error" "Not authenticated" true])
  /\ rows (saved_recipes (world_after (handleDelete opening signed_out 1%N)))
     = rows (saved_recipes signed_out).
Proof.
  refine (signed_out_changes_nothing signed_out showing_pilaf opening pilaf 1%N
            _ _); reflexivity.
Defined.

Lemma store_failure_changes_nothing_witness :
  handleSaveRecipe showing_pilaf store_down
  = (mkRecipePage (Some pilaf) false false false false,
     store_down, [mkToast "Error" "connection timed out" true])
  /\ handleFavoriteRecipe showing_pilaf store_down
     = (mkRecipePage (Some pilaf) false false false false,
        store_down, [mkToast "Error" "connection timed out" true])
  /\ handleDelete opening store_down 1%N
     = (opening, store_down, [mkToast "Error" "connection timed out" true])
  /\ fetchSavedRecipes opening store_down
     = (mkSavedRecipesPage [] false "all",
        [mkToast "Error" "connection timed out" true],
        None).
Proof.
  refine (store_failure_changes_nothing store_down 7%N "connection timed out"
            showing_pilaf opening pilaf 1%N _ _ _); reflexivity.
Defined.

Lemma save_button_saves_once_witness :
  let t := saved_recipes two_cooks in
  let row n := mkRow n 7%N "Chicken pilaf" pilaf false 20%N 20%N in
  let once := clickSave showing_pilaf two_cooks in
  let twice := clickSave (page_after once) (world_after once) in
  let handler_twice :=
    handleSaveRecipe (page_after once) (world_after once) in
  rows (saved_recipes (world_after once)) = (rows t ++ [row 3%N])%list
  /\ twice = (page_after once, world_after once, [])
  /\ rows (saved_recipes (world_after handler_twice))
     = (rows t ++ [row 3%N; row 4%N])%list.
Proof.
  refine (save_button_saves_once showing_pilaf two_cooks pilaf 7%N _ _ _ _ _);
    reflexivity.
Defined.

Lemma tabs_cover_the_listing_witness :
  let page := fst (fst (fetchSavedRecipes opening two_cooks)) in
  render page = Tabs (savedRecipes page) (favoriteRecipes page)
  /\ List.length (savedRecipes page) + List.length (favoriteRecipes page)
     = List.length (recipes page)
  /\ (savedRecipes page <> [] \/ favoriteRecipes page <> []).
Proof.
  refine (tabs_cover_the_listing (fst (fst (fetchSavedRecipes opening two_cooks)))
            _ _).
  - reflexivity.
  - vm_compute. discriminate.
Defined.

Lemma add_then_remove_witness :
  IndexPage.ingredients (addIngredient typing_chicken) = ["rice"; "chicken"]
  /\ currentIngredient (addIngredient typing_chicken) = EmptyString
  /\ IndexPage.ingredients (removeIngredient (addIngredient typing_chicken) "chicken")
     = ["rice"]
  /\ forall x, ~ In x (IndexPage.ingredients (removeIngredient typing_chicken x)).
Proof.
  refine (add_then_remove typing_chicken _ _).
  - vm_compute. discriminate.
  - vm_compute. intros [H | []]. discriminate H.
Defined.

Lemma destructive_toast_causes_witness :
  let t := mkToast "Error" "Edge Function returned a non-2xx status code" true in
  let effects := snd (generateRecipe chicken_and_rice function_fails) in
  let body := JObj [("ingredients", JArr [JStr "chicken"; JStr "rice"])] in
  (IndexPage.ingredients chicken_and_rice = []
   /\ t = mkToast "Add some ingredients"
            "Please add at least one ingredient to generate a recipe." true
   /\ invocations effects = [])
  \/ (IndexPage.ingredients chicken_and_rice <> []
      /\ exists message,
           function_fails "generate-recipe" body = InvokeError message
           /\ t = mkToast "Error"
                    (or_else message
                       "Failed to generate recipe. Please try again.") true
           /\ In (LogError "Error generating recipe:" message) effects).
Proof.
  intros t effects body.
  refine (destructive_toast_causes chicken_and_rice function_fails t _ _).
  - vm_compute. right. right. left. reflexivity.
  - reflexivity.
Defined.

Lemma page_ingredients_reach_the_prompt_witness :
  exists rq,
    In (Fetch rq (Resolves (mkUpstream 429 "slow down")))
       (snd (handler configured (replies 429 "slow down")
               (mkRequest "POST"
                  (template "{'ingredients':['chicken','rice']}"))))
    /\ fetch_body rq = chicken_rice_body
    /\ parse (fetch_body rq)
       = Some
           (JObj
              [("model", JStr "google/gemini-2.5-flash");
               ("messages",
                JArr
                  [JObj [("role", JStr "system"); ("content", JStr systemPrompt)];
                   JObj [("role", JStr "user");
                         ("content",
                          JStr "Create a recipe using these ingredients: chicken, rice")]]);
               ("response_format", JObj [("type", JStr "json_object")])]).
Proof.
  destruct (page_ingredients_reach_the_prompt chicken_and_rice function_fails
              configured (replies 429 "slow down")
              (JObj [("ingredients", JArr [JStr "chicken"; JStr "rice"])]))
    as [_ [rq [Hcall [_ [Hread Htext]]]]].
  - vm_compute. left. reflexivity.
  - reflexivity.
  - exists rq. split; [exact Hcall |].
    split; [rewrite Htext; vm_compute; reflexivity | exact Hread].
Defined.
